(** * Scully: transfer-state rehydration and build-time route discovery

    A shallow embedding of
    - [traverseAppRoutes] and [addExtraRoutes] (build-time route discovery),
    - [TransferStateService] (browser-side rehydration of page state),
    and the properties of the design document that can be settled on them.

    JavaScript strings are sequences of UTF-16 code units, written [list N];
    an object that holds data is the list of its properties, key and value,
    in the order in which JavaScript enumerates them. *)

From Stdlib Require Import ZArith NArith Ascii String.
From stdpp Require Import base option numbers list.

Local Open Scope string_scope.
Local Open Scope list_scope.

(** ** JavaScript strings and values *)

Module Js.

(** A string literal of the source, as code units (ASCII literals only). *)
Definition lit (s : string) : list N :=
  List.map N_of_ascii (list_ascii_of_string s).

(** ECMAScript WhiteSpace and LineTerminator code points: what
    [String.prototype.trim] strips. *)
Definition isWhiteSpace (c : N) : bool :=
  (bool_decide (c ∈ [9; 10; 11; 12; 13; 32; 160; 5760; 8232; 8233; 8239; 8287;
                     12288; 65279])
   || ((8192 <=? c) && (c <=? 8202)))%N.

Fixpoint trimStart (s : list N) : list N :=
  match s with
  | [] => []
  | c :: s' => if isWhiteSpace c then trimStart s' else s
  end.

Definition trimEnd (s : list N) : list N := rev (trimStart (rev s)).

(** [s.trim()] *)
Definition trim (s : list N) : list N := trimEnd (trimStart s).

(** [s.startsWith(p)] *)
Fixpoint startsWith (p s : list N) : bool :=
  match p, s with
  | [], _ => true
  | _ :: _, [] => false
  | a :: p', b :: s' => (a =? b)%N && startsWith p' s'
  end.

(** [s.endsWith(p)] *)
Definition endsWith (p s : list N) : bool := startsWith (rev p) (rev s).

(** The loop of [s.split(sep)] for a non-empty separator: [skip] counts the
    code units of a separator that is being stepped over, [cur] is the piece
    under construction, reversed. *)
Fixpoint split_go (sep : list N) (skip : nat) (cur : list N) (s : list N)
  : list (list N) :=
  match s with
  | [] => [rev cur]
  | c :: s' =>
      match skip with
      | S k => split_go sep k cur s'
      | O =>
          if startsWith sep s
          then rev cur :: split_go sep (length sep - 1) [] s'
          else split_go sep 0 (c :: cur) s'
      end
  end.

(** [s.split(sep)], for the non-empty literal separators of the source. *)
Definition split (sep s : list N) : list (list N) := split_go sep 0 [] s.

(** [s.indexOf(sep)] from position [i] on; [None] stands for -1. *)
Fixpoint indexOf_from (sep s : list N) (i : nat) : option nat :=
  if startsWith sep s then Some i
  else match s with
       | [] => None
       | _ :: s' => indexOf_from sep s' (S i)
       end.

Definition indexOf (sep s : list N) : option nat := indexOf_from sep s 0.

(** Values.  Objects carry a reference [ref] that stands for their identity;
    every thenable is a [JPromise], given with the way it settles:
    [fulfilled] with the value [settled], or rejected with it. *)
#[warnings="-register-all"] Inductive JsVal : Type :=
| JUndefined
| JNull
| JBool (b : bool)
| JNaN
| JNum (n : Z)
| JStr (s : list N)
| JArray (ref : nat) (elems : list JsVal)
| JPromise (ref : nat) (fulfilled : bool) (settled : JsVal)
| JObject (ref : nat).

(** The key of an array index: the canonical decimal form of an integer
    below 2^32 - 1.  Such keys are enumerated first, in ascending order. *)
Definition digit (c : N) : option N :=
  if ((48 <=? c) && (c <=? 57))%N then Some (c - 48)%N else None.

Fixpoint digitsValue (acc : N) (s : list N) : option N :=
  match s with
  | [] => Some acc
  | c :: s' =>
      match digit c with
      | Some d => digitsValue (10 * acc + d)%N s'
      | None => None
      end
  end.

Definition arrayIndex (key : list N) : option N :=
  match key with
  | [] => None
  | c :: rest =>
      if (c =? 48)%N && negb (bool_decide (rest = [])) then None
      else match digitsValue 0 key with
           | Some n => if (n <? 4294967295)%N then Some n else None
           | None => None
           end
  end.

(** [o[key]] on own properties; [None] when there is none. *)
Fixpoint getProp (key : list N) (o : list (list N * JsVal)) : option JsVal :=
  match o with
  | [] => None
  | (k, v) :: o' => if bool_decide (k = key) then Some v else getProp key o'
  end.

(** Giving a property that exists a new value leaves it where it is. *)
Fixpoint replaceProp (key : list N) (val : JsVal) (o : list (list N * JsVal))
  : list (list N * JsVal) :=
  match o with
  | [] => []
  | (k, v) :: o' =>
      if bool_decide (k = key) then (k, val) :: o' else (k, v) :: replaceProp key val o'
  end.

(** A new array index goes before the first key that is a larger index or
    no index at all. *)
Fixpoint insertIndex (n : N) (key : list N) (val : JsVal) (o : list (list N * JsVal))
  : list (list N * JsVal) :=
  match o with
  | [] => [(key, val)]
  | (k, v) :: o' =>
      match arrayIndex k with
      | Some m => if (m <? n)%N then (k, v) :: insertIndex n key val o'
                  else (key, val) :: o
      | None => (key, val) :: o
      end
  end.

(** [o[key] = val] on a plain object, as the enumeration order shows it:
    any other new key goes last. *)
Definition setProp (key : list N) (val : JsVal) (o : list (list N * JsVal))
  : list (list N * JsVal) :=
  match getProp key o with
  | Some _ => replaceProp key val o
  | None =>
      match arrayIndex key with
      | Some n => insertIndex n key val o
      | None => o ++ [(key, val)]
      end
  end.

(** The outcome of running a piece of code that may throw. *)
Inductive Completion (A : Type) : Type :=
| Returns (a : A)
| Throws (e : JsVal).
Arguments Returns {A} a.
Arguments Throws {A} e.

(** ToBoolean *)
Definition truthy (x : JsVal) : bool :=
  match x with
  | JUndefined | JNull | JNaN => false
  | JBool b => b
  | JNum n => negb (n =? 0)%Z
  | JStr s => match s with [] => false | _ => true end
  | JArray _ _ | JPromise _ _ _ | JObject _ => true
  end.

(** [typeof x] *)
Definition typeof (x : JsVal) : list N :=
  match x with
  | JUndefined => lit "undefined"
  | JBool _ => lit "boolean"
  | JNaN | JNum _ => lit "number"
  | JStr _ => lit "string"
  | JNull | JArray _ _ | JPromise _ _ _ | JObject _ => lit "object"
  end.

(** [Array.isArray(x)] *)
Definition isArray (x : JsVal) : bool :=
  match x with JArray _ _ => true | _ => false end.

(** SameValueZero, the comparison of [Array.prototype.includes]. *)
Definition sameValueZero (x y : JsVal) : bool :=
  match x, y with
  | JUndefined, JUndefined | JNull, JNull | JNaN, JNaN => true
  | JBool a, JBool b => bool_decide (a = b)
  | JNum a, JNum b => (a =? b)%Z
  | JStr a, JStr b => bool_decide (a = b)
  | JArray r _, JArray r' _ => (r =? r')%nat
  | JPromise r _ _, JPromise r' _ _ => (r =? r')%nat
  | JObject r, JObject r' => (r =? r')%nat
  | _, _ => false
  end.

(** [a.includes(x)] *)
Definition includes (a : list JsVal) (x : JsVal) : bool :=
  existsb (fun y => sameValueZero y x) a.

(** [a.concat(x)]: a NEW array; [a] itself is left as it is. *)
Definition concat (a : list JsVal) (x : JsVal) : list JsVal :=
  match x with
  | JArray _ xs => a ++ xs
  | _ => a ++ [x]
  end.

(** [a.findIndex(p)] *)
Fixpoint findIndex_from {A} (p : A -> bool) (i : Z) (a : list A) : Z :=
  match a with
  | [] => (-1)%Z
  | x :: a' => if p x then i else findIndex_from p (i + 1)%Z a'
  end.

Definition findIndex {A} (p : A -> bool) (a : list A) : Z := findIndex_from p 0%Z a.

(** [await x] *)
Definition await (x : JsVal) : Completion JsVal :=
  match x with
  | JPromise _ true v => Returns v
  | JPromise _ false e => Throws e
  | v => Returns v
  end.

End Js.

(** ** Route discovery (build time) *)

Module Routes.
Import Js.

(** What the routine writes to the log. *)
Inductive LogEntry : Type :=
| WarnNoTsconfig (file : list N)
| ConsoleError (e : JsVal)
| ErrorReadingRoutes
| WarnExtraRoutesType (type : list N).

(** [isPromise] of [addExtraRoutes] *)
Definition isPromise (x : JsVal) : bool :=
  truthy x && match x with JPromise _ _ _ => true | _ => false end.

(** The [forEach] over a plain array: top-level duplicates are dropped. *)
Definition dedupe (extraRoutes : list JsVal) : list JsVal :=
  fold_left (fun workList r => if includes workList r then workList else workList ++ [r])
            extraRoutes [].

(** The inner [x.forEach] of the final loop. *)
Definition pushStrings (result : list (list N)) (x : list JsVal) : list (list N) :=
  fold_left (fun result s => match s with JStr t => result ++ [t] | _ => result end)
            x result.

(** The final [for (const route of workList)] loop. *)
Fixpoint collect (workList : list JsVal) (result : list (list N))
  : Completion (list (list N)) :=
  match workList with
  | [] => Returns result
  | route :: rest =>
      let result := match route with JStr s => result ++ [s] | _ => result end in
      if isPromise route then
        match await route with
        | Throws e => Throws e
        | Returns x =>
            let result := match x with JStr s => result ++ [s] | _ => result end in
            let result := match x with JArray _ xs => pushStrings result xs | _ => result end in
            collect rest result
        end
      else collect rest result
  end.

(** [addExtraRoutes], on the configured [scullyConfig.extraRoutes]. *)
Definition addExtraRoutes (extraRoutes : JsVal)
  : list LogEntry * Completion (list (list N)) :=
  if negb (truthy extraRoutes) then ([], Returns [])
  else
    match extraRoutes with
    | JStr s => ([], Returns [s])
    | _ =>
        let workList : list JsVal := [] in
        if isPromise extraRoutes then
          match await extraRoutes with
          | Throws e => ([], Throws e)
          | Returns outerResult =>
              match outerResult with
              | JStr s => ([], Returns [s])
              | _ =>
                  (* workList.concat(outerResult); the new array is dropped *)
                  let _dropped := concat workList outerResult in
                  ([], collect workList [])
              end
          end
        else
          match extraRoutes with
          | JArray _ elems => ([], collect (dedupe elems) [])
          | _ => ([WarnExtraRoutesType (typeof extraRoutes)], Returns [])
          end
    end.

(** The predicate of the [findIndex] of [traverseAppRoutes]. *)
Definition isRoot (r : list N) : bool :=
  bool_decide (trim r = lit "") || bool_decide (trim r = lit "/").

Section Traverse.
(** The collaborators of [traverseAppRoutes]: [path.join], [existFolder],
    the [--showGuessError] switch, [guess-parser] (the routes' [path]
    fields, or the exception it raises) and the configuration. *)
Variable join : list N -> list N -> list N.
Variable existFolder : list N -> bool.
Variable sge : bool.
Variable parseAngularRoutes : list N -> list (list N) -> Completion (list (list N)).
Variable excludedFiles : list (list N).
Variable extraRoutesConfig : JsVal.

(** The [try] block and its [catch]: the statically discovered routes. *)
Definition staticRoutes (appRootFolder : list N) : list LogEntry * list (list N) :=
  let file := join appRootFolder (lit "tsconfig.app.json") in
  let file := if negb (existFolder file)
              then join appRootFolder (lit "../tsconfig.app.json") else file in
  let file := if negb (existFolder file)
              then join appRootFolder (lit "../../tsconfig.app.json") else file in
  let '(log, parsed) :=
    if negb (existFolder file)
    then ([WarnNoTsconfig file], parseAngularRoutes appRootFolder excludedFiles)
    else ([], parseAngularRoutes file excludedFiles) in
  match parsed with
  | Returns routes => (log, routes)
  | Throws e =>
      (log ++ (if sge then [ConsoleError e] else []) ++ [ErrorReadingRoutes], [])
  end.

Definition traverseAppRoutes (appRootFolder : list N)
  : list LogEntry * Completion (list (list N)) :=
  match addExtraRoutes extraRoutesConfig with
  | (log0, Throws e) => (log0, Throws e)
  | (log0, Returns extraRoutes) =>
      let '(log1, routes) := staticRoutes appRootFolder in
      let allRoutes := routes ++ extraRoutes in
      let allRoutes :=
        if (findIndex isRoot allRoutes =? -1)%Z then allRoutes ++ [lit "/"]
        else allRoutes in
      (log0 ++ log1, Returns allRoutes)
  end.
End Traverse.

End Routes.

(** ** The transfer-state service (browser side) *)

Module TransferState.
Import Js.

Definition SCULLY_SCRIPT_ID : list N := lit "ScullyIO-transfer-state".
Definition SCULLY_STATE_START : list N := lit "/** ___SCULLY_STATE_START___ */".
Definition SCULLY_STATE_END : list N := lit "/** ___SCULLY_STATE_END___ */".
Definition initialStateDone : list N := lit "__done__with__Initial__navigation__".

(** [interface State { [key: string]: any }] is an object of [Js]: the list
    of its properties in enumeration order. *)

(** The router events the service looks at. *)
Inductive RouterEvent : Type :=
| NavigationStart (url : list N)
| NavigationEnd (url urlAfterRedirects : list N)
| OtherRouterEvent.

(** What the page offers the service: the two environment tests, the
    injected flag, [window['ScullyIO-exposed'].transferState],
    [window.location.pathname] and [window['ScullyIO-transfer-state']]
    (absent values are [None]). *)
Record Window : Type := {
  isScullyRunning : bool;
  isScullyGenerated : bool;
  injectedInlineStateOnly : bool;
  exposedTransferState : option (list (list N * JsVal));
  pathname : list N;
  windowState : option (list (list N * JsVal))
}.

(** A read that is on its way: which helper was called, on which URL. *)
Inductive Request : Type :=
| ReadFromJson (url : list N)
| ReadFromIndex (url : list N).

Inductive ResponseType : Type := AsJson | AsText.

(** What leaves the service. *)
Inductive Effect : Type :=
| Fetch (url : list N) (type : ResponseType)
| ConsoleWarn.

(** One subscription made by [fetchTransferState]: [outerOpen] while
    [takeWhile] has not completed, [inner] the read that [switchMap] is
    currently subscribed to. *)
Record Pipeline : Type := {
  outerOpen : bool;
  inner : option Request
}.

(** The fields of the class, followed by the state of its observables:
    [connected] once [shareReplay] has subscribed to the router,
    [navigating] the start URL whose [NavigationEnd] the second [switchMap]
    waits for, [replay] the buffer of [shareReplay(1)], [waiting] the calls
    of [fetchTransferState] suspended on [nextUrl.pipe(take(1))], [tracking]
    its live subscriptions, oldest first. *)
Record Service : Type := {
  script : option (list N);
  inlineOnly : bool;
  initialUrl : option (list N);
  currentBaseUrl : option (list N);
  stateBS : option (list (list N * JsVal));
  connected : bool;
  navigating : option (list N);
  replay : option (list N);
  waiting : nat;
  tracking : list Pipeline;
  effects : list Effect
}.

Definition with_script v s :=
  {| script := v; inlineOnly := inlineOnly s; initialUrl := initialUrl s;
     currentBaseUrl := currentBaseUrl s; stateBS := stateBS s;
     connected := connected s; navigating := navigating s; replay := replay s;
     waiting := waiting s; tracking := tracking s; effects := effects s |}.
Definition with_inlineOnly v s :=
  {| script := script s; inlineOnly := v; initialUrl := initialUrl s;
     currentBaseUrl := currentBaseUrl s; stateBS := stateBS s;
     connected := connected s; navigating := navigating s; replay := replay s;
     waiting := waiting s; tracking := tracking s; effects := effects s |}.
Definition with_initialUrl v s :=
  {| script := script s; inlineOnly := inlineOnly s; initialUrl := v;
     currentBaseUrl := currentBaseUrl s; stateBS := stateBS s;
     connected := connected s; navigating := navigating s; replay := replay s;
     waiting := waiting s; tracking := tracking s; effects := effects s |}.
Definition with_currentBaseUrl v s :=
  {| script := script s; inlineOnly := inlineOnly s; initialUrl := initialUrl s;
     currentBaseUrl := v; stateBS := stateBS s;
     connected := connected s; navigating := navigating s; replay := replay s;
     waiting := waiting s; tracking := tracking s; effects := effects s |}.
Definition with_stateBS v s :=
  {| script := script s; inlineOnly := inlineOnly s; initialUrl := initialUrl s;
     currentBaseUrl := currentBaseUrl s; stateBS := v;
     connected := connected s; navigating := navigating s; replay := replay s;
     waiting := waiting s; tracking := tracking s; effects := effects s |}.
Definition with_connected v s :=
  {| script := script s; inlineOnly := inlineOnly s; initialUrl := initialUrl s;
     currentBaseUrl := currentBaseUrl s; stateBS := stateBS s;
     connected := v; navigating := navigating s; replay := replay s;
     waiting := waiting s; tracking := tracking s; effects := effects s |}.
Definition with_navigating v s :=
  {| script := script s; inlineOnly := inlineOnly s; initialUrl := initialUrl s;
     currentBaseUrl := currentBaseUrl s; stateBS := stateBS s;
     connected := connected s; navigating := v; replay := replay s;
     waiting := waiting s; tracking := tracking s; effects := effects s |}.
Definition with_replay v s :=
  {| script := script s; inlineOnly := inlineOnly s; initialUrl := initialUrl s;
     currentBaseUrl := currentBaseUrl s; stateBS := stateBS s;
     connected := connected s; navigating := navigating s; replay := v;
     waiting := waiting s; tracking := tracking s; effects := effects s |}.
Definition with_waiting v s :=
  {| script := script s; inlineOnly := inlineOnly s; initialUrl := initialUrl s;
     currentBaseUrl := currentBaseUrl s; stateBS := stateBS s;
     connected := connected s; navigating := navigating s; replay := replay s;
     waiting := v; tracking := tracking s; effects := effects s |}.
Definition with_tracking v s :=
  {| script := script s; inlineOnly := inlineOnly s; initialUrl := initialUrl s;
     currentBaseUrl := currentBaseUrl s; stateBS := stateBS s;
     connected := connected s; navigating := navigating s; replay := replay s;
     waiting := waiting s; tracking := v; effects := effects s |}.
Definition with_effects v s :=
  {| script := script s; inlineOnly := inlineOnly s; initialUrl := initialUrl s;
     currentBaseUrl := currentBaseUrl s; stateBS := stateBS s;
     connected := connected s; navigating := navigating s; replay := replay s;
     waiting := waiting s; tracking := tracking s; effects := v |}.

(** The field initialisers of the class. *)
Definition new_service : Service :=
  {| script := None; inlineOnly := false; initialUrl := None;
     currentBaseUrl := Some (lit "//"); stateBS := Some [];
     connected := false; navigating := None; replay := None;
     waiting := 0; tracking := []; effects := [] |}.

(** [base] of [fetchTransferState]: the first part that is not blank, or
    [undefined] ([None]) when there is none. *)
Definition base (url : list N) : option (list N) :=
  head (List.filter (fun part => negb (bool_decide (trim part = lit "")))
                    (split (lit "/") url)).

(** [ev.urlAfterRedirects || ev.url]; a missing [urlAfterRedirects] is the
    empty string here, which is falsy as well. *)
Definition resolved (url urlAfterRedirects : list N) : list N :=
  match urlAfterRedirects with [] => url | _ => urlAfterRedirects end.

(** [nextUrl] up to [map]: what one router event does to the two
    [switchMap]s and the [tap] between them, and the URL it makes the
    observable emit, if any. *)
Definition nextUrl_step (s : Service) (e : RouterEvent) : Service * option (list N) :=
  match e with
  | NavigationStart url =>
      if bool_decide (initialUrl s = Some url)
      then (with_initialUrl (Some initialStateDone) s, None)
      else (with_navigating (Some url) (with_stateBS None s), None)
  | NavigationEnd url urlAfterRedirects =>
      match navigating s with
      | Some started =>
          if bool_decide (url = started)
          then (with_navigating None s, Some (resolved url urlAfterRedirects))
          else (s, None)
      | None => (s, None)
      end
  | OtherRouterEvent => (s, None)
  end.

(** The URLs [nextUrl] emits over a sequence of router events. *)
Fixpoint nextUrl_run (s : Service) (es : list RouterEvent) : Service * list (list N) :=
  match es with
  | [] => (s, [])
  | e :: es' =>
      let '(s1, out) := nextUrl_step s e in
      let '(s2, outs) := nextUrl_run s1 es' in
      (s2, match out with Some u => u :: outs | None => outs end)
  end.

(** [html.split(SCULLY_STATE_START)[1].split(SCULLY_STATE_END)[0]]; [None]
    when taking it throws. *)
Definition newStateStr (html : list N) : option (list N) :=
  match split SCULLY_STATE_START html with
  | _ :: after :: _ => head (split SCULLY_STATE_END after)
  | _ => None
  end.

Section Service.
(** [JSON.parse] on a snapshot ([None]: it throws), which gives the
    properties in the order JavaScript enumerates them; [JSON.stringify],
    which writes them in that order; and [mergePaths] of the utilities. *)
Variable JSON_parse : list N -> option (list (list N * JsVal)).
Variable JSON_stringify : list (list N * JsVal) -> list N.
Variable mergePaths : list N -> list N -> list N.

(** [saveState]: under Scully the script element is rewritten; writing to
    a script element that was never created throws (a TypeError, here the
    object [JObject 0]). *)
Definition saveState (w : Window) (newState : list (list N * JsVal)) (s : Service)
  : Service * Completion unit :=
  if isScullyRunning w then
    match script s with
    | Some _ =>
        (with_script
           (Some (lit "window['" ++ SCULLY_SCRIPT_ID ++ lit "']=" ++ SCULLY_STATE_START
                  ++ JSON_stringify newState ++ SCULLY_STATE_END)) s,
         Returns tt)
    | None => (s, Throws (JObject 0))
    end
  else (s, Returns tt).

(** [setState(name, val)]: the copy made by the spread has the properties
    of the snapshot in their order, none when the snapshot is [undefined];
    then [name] is set in it. *)
Definition setState (w : Window) (name : list N) (val : JsVal) (s : Service)
  : Service * Completion unit :=
  let newState := setProp name val (default [] (stateBS s)) in
  saveState w newState (with_stateBS (Some newState) s).

(** What a subscriber of [getState(name)] is handed for the current
    snapshot: nothing while it is [undefined], else [state[name]]. *)
Definition pluck (name : list N) (s : Service) : option JsVal :=
  match stateBS s with
  | None => None
  | Some state => Some (default JUndefined (getProp name state))
  end.

Definition setupEnvForTransferState (w : Window) (s : Service) : Service :=
  if isScullyRunning w then
    let s := with_script (Some []) s in
    match exposedTransferState w with
    | Some transferState =>
        fst (saveState w transferState (with_stateBS (Some transferState) s))
    | None => s
    end
  else if isScullyGenerated w then
    let initial := match pathname w with [] => lit "__no_NO_no__" | p => p end in
    let initial :=
      if negb (bool_decide (initial = lit "/")) && endsWith (lit "/") initial
      then take (length initial - 1) initial else initial in
    with_stateBS (Some (default [] (windowState w))) (with_initialUrl (Some initial) s)
  else s.

Definition setupStartNavMonitoring (w : Window) (s : Service) : Service :=
  if negb (isScullyGenerated w) then s else with_connected true s.

Definition startMonitoring (w : Window) (s : Service) : Service :=
  let s := if injectedInlineStateOnly w then with_inlineOnly true s else s in
  setupStartNavMonitoring w (setupEnvForTransferState w s).

(** The read that [switchMap] starts for [url], and the call of
    [fetchHttp] it makes. *)
Definition read (s : Service) (url : list N) : Request :=
  if inlineOnly s then ReadFromIndex url else ReadFromJson url.

Definition request (r : Request) : Effect :=
  match r with
  | ReadFromJson url => Fetch (mergePaths url (lit "/data.json")) AsJson
  | ReadFromIndex url => Fetch (url ++ lit "/index.html") AsText
  end.

(** The [then] callback of [readFromIndex]; [None] when it throws:
    [split(...)[1]] is [undefined] when the start marker is missing. *)
Definition readFromIndex_then (html : list N) : option (list (list N * JsVal)) :=
  match newStateStr html with
  | Some str => JSON_parse str
  | None => None
  end.

(** Modelled from the spec: [fetchHttp], the Fetch Adapter, which
    "retrieves a resource (JSON or text) by URL; returns a parsed result or
    rejects".  [response] is the body the network delivers, [None] when
    the request fails; the result is the value the read's promise is
    fulfilled with, [None] when it is rejected. *)
Definition readResult (r : Request) (response : option (list N))
  : option (list (list N * JsVal)) :=
  match r, response with
  | _, None => None
  | ReadFromJson _, Some body => JSON_parse body
  | ReadFromIndex _, Some html => readFromIndex_then html
  end.

(** The [complete] handler of the subscription. *)
Definition complete (s : Service) : Service :=
  with_currentBaseUrl (Some (lit "//")) s.

(** [nextUrl] hands [url] to one subscription of [fetchTransferState]:
    [takeWhile], then [switchMap].  [None] for a subscription that ended. *)
Definition pipeline_next (url : list N) (s : Service) (p : Pipeline)
  : Service * option Pipeline :=
  if outerOpen p then
    if bool_decide (base url = currentBaseUrl s) then
      (with_effects (effects s ++ [request (read s url)]) s,
       Some {| outerOpen := true; inner := Some (read s url) |})
    else
      match inner p with
      | Some _ => (s, Some {| outerOpen := false; inner := inner p |})
      | None => (complete s, None)
      end
  else (s, Some p).

(** ... and to all of them, in the order they subscribed. *)
Fixpoint pipelines_next (url : list N) (s : Service) (ps : list Pipeline)
  : Service * list Pipeline :=
  match ps with
  | [] => (s, [])
  | p :: ps' =>
      let '(s1, p1) := pipeline_next url s p in
      let '(s2, ps2) := pipelines_next url s1 ps' in
      (s2, match p1 with Some q => q :: ps2 | None => ps2 end)
  end.

(** [fetchTransferState] from [const baseUrl = base(currentUrl)] on. *)
Definition fetchTransferState_resume (currentUrl : list N) (s : Service) : Service :=
  let baseUrl := base currentUrl in
  if bool_decide (currentBaseUrl s = baseUrl) then s
  else
    let s := with_currentBaseUrl baseUrl s in
    let fresh := {| outerOpen := true; inner := None |} in
    match replay s with
    | Some url =>
        let '(s1, p1) := pipeline_next url s fresh in
        with_tracking (tracking s1 ++ match p1 with Some q => [q] | None => [] end) s1
    | None => with_tracking (tracking s ++ [fresh]) s
    end.

(** [fetchTransferState], taken up once its timer has fired: with a URL in
    the replay buffer it goes on at once, else it waits for the next one. *)
Definition fetchTransferState (s : Service) : Service :=
  let s := with_connected true s in
  match replay s with
  | Some currentUrl => fetchTransferState_resume currentUrl s
  | None => with_waiting (S (waiting s)) s
  end.

(** [nextUrl] emits [url]: the buffer, the live subscriptions, then the
    suspended calls of [fetchTransferState]. *)
Definition emit (url : list N) (s : Service) : Service :=
  let s := with_replay (Some url) s in
  let '(s1, ps) := pipelines_next url s (tracking s) in
  let s2 := with_waiting 0 (with_tracking ps s1) in
  Nat.iter (waiting s1) (fetchTransferState_resume url) s2.

(** A router event reaches the service. *)
Definition router_event (e : RouterEvent) (s : Service) : Service :=
  if connected s then
    match nextUrl_step s e with
    | (s1, Some url) => emit url s1
    | (s1, None) => s1
    end
  else s.

(** The read of the [i]-th subscription settles: [tap] on success,
    [catchError] and then [tap] and [complete] on failure. *)
Definition settle (i : nat) (response : option (list N)) (s : Service) : Service :=
  match tracking s !! i with
  | Some {| outerOpen := open; inner := Some r |} =>
      match readResult r response with
      | Some newState =>
          let s := with_stateBS (Some newState) s in
          if open
          then with_tracking (<[i := {| outerOpen := true; inner := None |}]> (tracking s)) s
          else complete (with_tracking (delete i (tracking s)) s)
      | None =>
          let s := with_effects (effects s ++ [ConsoleWarn]) s in
          let s := with_stateBS (Some []) s in
          complete (with_tracking (delete i (tracking s)) s)
      end
  | _ => s
  end.

(** What can happen to the service.  [GetState] stands for the call of
    [fetchTransferState] that [getState] makes, at the point where its timer
    has fired; [Settled i] for the answer to the read that the [i]-th
    subscription is waiting for. *)
Inductive Event : Type :=
| StartMonitoring (w : Window)
| Router (e : RouterEvent)
| GetState (name : list N)
| SetState (w : Window) (name : list N) (val : JsVal)
| Settled (i : nat) (response : option (list N)).

Definition step (s : Service) (ev : Event) : Service :=
  match ev with
  | StartMonitoring w => startMonitoring w s
  | Router e => router_event e s
  | GetState _ => fetchTransferState s
  | SetState w name val => fst (setState w name val s)
  | Settled i response => settle i response s
  end.

Definition run (s : Service) (evs : list Event) : Service := fold_left step evs s.

End Service.

End TransferState.

(** ** Sample collaborators and pages, for the concrete runs below *)

Module Samples.
Import Js TransferState.

(** A stand-in for [JSON.parse]: "{}" is the empty object, "{x}" the object
    whose key "title" holds the string x, anything else a syntax error. *)
Definition parse (body : list N) : option (list (list N * JsVal)) :=
  if startsWith (lit "{") body && endsWith (lit "}") body && (2 <=? length body)%nat
  then match take (length body - 2) (drop 1 body) with
       | [] => Some []
       | x => Some [(lit "title", JStr x)]
       end
  else None.

(** A stand-in for [JSON.stringify], inverse to [parse] on its range. *)
Definition stringify (state : list (list N * JsVal)) : list N :=
  match getProp (lit "title") state with
  | Some (JStr x) => lit "{" ++ x ++ lit "}"
  | _ => lit "{}"
  end.

Definition mergePaths (a b : list N) : list N := a ++ b.

(** A page that Scully rendered, opened in a browser at [path]. *)
Definition generated (path : list N) (inlineStateOnly : bool) : Window :=
  {| isScullyRunning := false; isScullyGenerated := true;
     injectedInlineStateOnly := inlineStateOnly; exposedTransferState := None;
     pathname := path; windowState := None |}.

(** A page that Scully is rendering at this moment. *)
Definition rendering : Window :=
  {| isScullyRunning := true; isScullyGenerated := false;
     injectedInlineStateOnly := false; exposedTransferState := None;
     pathname := lit "/"; windowState := None |}.

(** One completed navigation, as the router reports it. *)
Definition navigate (url : list N) : list (Event) :=
  [Router (NavigationStart url); Router (NavigationEnd url url)].

End Samples.

(** ** The statements of the design document, as definitions *)

Module Reference.
Import Js TransferState.


Definition resolvedOf (nav : list N * list N) : list N := resolved (fst nav) (snd nav).

(** The emitted sequence as section 8 words it: the FIRST navigation is left
    out when its target is the initial URL; every later one is emitted. *)
Definition stated_emission (initial : option (list N)) (navs : list (list N * list N))
  : list (list N) :=
  match navs with
  | [] => []
  | nav :: rest =>
      (if bool_decide (initial = Some (fst nav)) then [] else [resolvedOf nav])
      ++ List.map resolvedOf rest
  end.

(** The emitted sequence of a one-time latch on the URL: the first
    navigation WHOSE TARGET IS the initial URL is left out, wherever it
    stands; every other one is emitted. *)
Fixpoint latched_emission (initial : option (list N)) (navs : list (list N * list N))
  : list (list N) :=
  match navs with
  | [] => []
  | nav :: rest =>
      if bool_decide (initial = Some (fst nav)) then List.map resolvedOf rest
      else resolvedOf nav :: latched_emission initial rest
  end.

(** The ways a read fails: the request is rejected, the body is not JSON,
    the page has no start marker, or the text cut out of it is not JSON. *)
Inductive ReadFails (JSON_parse : list N -> option (list (list N * JsVal)))
  : Request -> option (list N) -> Prop :=
| fetch_rejected r : ReadFails JSON_parse r None
| body_not_json url body :
    JSON_parse body = None -> ReadFails JSON_parse (ReadFromJson url) (Some body)
| start_marker_missing url html :
    indexOf SCULLY_STATE_START html = None ->
    ReadFails JSON_parse (ReadFromIndex url) (Some html)
| payload_not_json url html str :
    newStateStr html = Some str -> JSON_parse str = None ->
    ReadFails JSON_parse (ReadFromIndex url) (Some html).

(** A list without its repetitions: each element where it first occurs. *)
Definition firstOccurrences (l : list (list N)) : list (list N) :=
  fold_left (fun acc x => if bool_decide (x ∈ acc) then acc else acc ++ [x]) l [].

(** The number of requests among the effects. *)
Definition fetches (l : list Effect) : nat :=
  length (List.filter (fun e => match e with Fetch _ _ => true | ConsoleWarn => false end) l).

End Reference.

(** ** Further notions used to state properties of the code *)

Module Notions.
Import Js Routes TransferState.

(** The three places where [traverseAppRoutes] looks for the manifest, in
    the order it tries them. *)
Definition tsconfigCandidates (join : list N -> list N -> list N) (appRootFolder : list N)
  : list (list N) :=
  [join appRootFolder (lit "tsconfig.app.json");
   join appRootFolder (lit "../tsconfig.app.json");
   join appRootFolder (lit "../../tsconfig.app.json")].

(** The entries of an array that the final loop of [addExtraRoutes] looks
    at: strings and thenables. *)
Definition isRouteSource (v : JsVal) : bool :=
  match v with
  | JStr _ | JPromise _ _ _ => true
  | _ => false
  end.

(** The step of the [forEach] that builds the work list. *)
Definition keep (workList : list JsVal) (r : JsVal) : list JsVal :=
  if includes workList r then workList else workList ++ [r].

(** The text [saveState] puts in the script element for a serialized
    snapshot. *)
Definition scriptText (json : list N) : list N :=
  lit "window['" ++ SCULLY_SCRIPT_ID ++ lit "']=" ++ SCULLY_STATE_START
  ++ json ++ SCULLY_STATE_END.

End Notions.

(** * Properties of route discovery *)

Module RoutesProps.
Import Js Routes Reference.

Lemma findIndex_from_found {A} (p : A -> bool) (a : list A) (i : Z) :
  (0 <= i)%Z -> existsb p a = true -> (0 <= findIndex_from p i a)%Z.
Proof.
  revert i; induction a as [|x a IH]; intros i Hi Hex; simpl in *.
  - discriminate.
  - destruct (p x); [exact Hi|]. apply IH; [lia | exact Hex].
Qed.

Lemma findIndex_from_missing {A} (p : A -> bool) (a : list A) (i : Z) :
  existsb p a = false -> findIndex_from p i a = (-1)%Z.
Proof.
  revert i; induction a as [|x a IH]; intros i Hex; simpl in *; [reflexivity|].
  destruct (p x); [discriminate|]. now apply IH.
Qed.

(** [findIndex] answers [-1] exactly when no element passes the test. *)
Lemma findIndex_minus_one {A} (p : A -> bool) (a : list A) :
  (findIndex p a =? -1)%Z = negb (existsb p a).
Proof.
  unfold findIndex. destruct (existsb p a) eqn:Hex; simpl.
  - apply Z.eqb_neq. pose proof (findIndex_from_found p a 0%Z (Z.le_refl 0) Hex). lia.
  - rewrite findIndex_from_missing by assumption. reflexivity.
Qed.

Lemma isRoot_spec (r : list N) :
  isRoot r = true <-> trim r = lit "" \/ trim r = lit "/".
Proof.
  unfold isRoot. rewrite orb_true_iff, !bool_decide_eq_true. reflexivity.
Qed.

Lemma existsb_isRoot_true (l : list (list N)) :
  existsb isRoot l = true ->
  Exists (fun r => trim r = lit "" \/ trim r = lit "/") l.
Proof.
  intros H. apply existsb_exists in H as (r & Hin & Hr).
  apply Exists_exists. exists r. split; [now apply list_elem_of_In|now apply isRoot_spec].
Qed.

Lemma existsb_isRoot_false (l : list (list N)) :
  existsb isRoot l = false ->
  Forall (fun r => trim r <> lit "" /\ trim r <> lit "/") l.
Proof.
  intros H. apply Forall_forall. intros r Hin.
  assert (isRoot r = false) as Hr.
  { destruct (isRoot r) eqn:E; [|reflexivity].
    assert (existsb isRoot l = true) as Hc
      by (apply existsb_exists; exists r; split; [now apply list_elem_of_In|exact E]).
    congruence. }
  split; intros Heq; apply not_true_iff_false in Hr; apply Hr, isRoot_spec; tauto.
Qed.

(** C1, evaluated on the code: configured with a promise that is fulfilled
    with the array ["c","d"], [addExtraRoutes] returns the empty list and
    not ["c","d"]: the array built by [workList.concat(outerResult)] is
    never stored, so the work list stays empty. *)
Theorem C1_deferred_array_is_lost :
  addExtraRoutes (JPromise 1 true (JArray 2 [JStr (lit "c"); JStr (lit "d")]))
  = ([], Returns []).
Proof. reflexivity. Qed.

(** C8: the list returned by [traverseAppRoutes] is the statically
    discovered routes followed by the resolved extra routes, and the root
    path "/" is appended at the end exactly when no entry of that list,
    once trimmed, is "/" or the empty string. *)
Theorem C8_root_appended_iff_missing
    (join : list N -> list N -> list N) (existFolder : list N -> bool) (sge : bool)
    (parseAngularRoutes : list N -> list (list N) -> Completion (list (list N)))
    (excludedFiles : list (list N)) (extraRoutesConfig : JsVal)
    (appRootFolder : list N) (log : list LogEntry) (extraRoutes : list (list N)) :
  addExtraRoutes extraRoutesConfig = (log, Returns extraRoutes) ->
  let routes :=
    snd (staticRoutes join existFolder sge parseAngularRoutes excludedFiles appRootFolder) in
  exists log' allRoutes,
    traverseAppRoutes join existFolder sge parseAngularRoutes excludedFiles
      extraRoutesConfig appRootFolder = (log', Returns allRoutes)
    /\ ((Forall (fun r => trim r <> lit "" /\ trim r <> lit "/") (routes ++ extraRoutes)
         /\ allRoutes = routes ++ extraRoutes ++ [lit "/"])
        \/ (Exists (fun r => trim r = lit "" \/ trim r = lit "/") (routes ++ extraRoutes)
            /\ allRoutes = routes ++ extraRoutes)).
Proof.
  intros Hextra routes. unfold traverseAppRoutes. rewrite Hextra.
  subst routes.
  destruct (staticRoutes join existFolder sge parseAngularRoutes excludedFiles appRootFolder)
    as [log1 routes] eqn:Hstatic.
  simpl snd. rewrite findIndex_minus_one.
  destruct (existsb isRoot (routes ++ extraRoutes)) eqn:Hex; simpl negb; cbv iota.
  - eexists _, _. split; [reflexivity|]. right. split; [|reflexivity].
    now apply existsb_isRoot_true.
  - eexists _, _. split; [reflexivity|]. left. split.
    + now apply existsb_isRoot_false.
    + now rewrite <- app_assoc.
Qed.

Lemma C8_root_appended_iff_missing_witness :
  exists log' allRoutes,
    traverseAppRoutes (fun a b => a ++ lit "/" ++ b) (fun _ => false) false
      (fun _ _ => Returns [lit "blog"; lit " / "]) [] (JStr (lit "about")) (lit "app")
    = (log', Returns allRoutes)
    /\ ((Forall (fun r => trim r <> lit "" /\ trim r <> lit "/")
           ([lit "blog"; lit " / "] ++ [lit "about"])
         /\ allRoutes = [lit "blog"; lit " / "] ++ [lit "about"] ++ [lit "/"])
        \/ (Exists (fun r => trim r = lit "" \/ trim r = lit "/")
              ([lit "blog"; lit " / "] ++ [lit "about"])
            /\ allRoutes = [lit "blog"; lit " / "] ++ [lit "about"])).
Proof.
  apply (C8_root_appended_iff_missing (fun a b => a ++ lit "/" ++ b) (fun _ => false) false
           (fun _ _ => Returns [lit "blog"; lit " / "]) [] (JStr (lit "about")) (lit "app")
           [] [lit "about"]).
  reflexivity.
Defined.

(** The guard [if (!extraRoutes)] comes first: a falsy value, of whatever
    type, gives the empty list and nothing is logged. *)
Lemma addExtraRoutes_falsy (x : JsVal) :
  truthy x = false -> addExtraRoutes x = ([], Returns []).
Proof. intros H. unfold addExtraRoutes. now rewrite H. Qed.

(** A non-empty string is returned as the one route. *)
Lemma addExtraRoutes_string (s : list N) :
  s <> [] -> addExtraRoutes (JStr s) = ([], Returns [s]).
Proof. intros Hs. destruct s; [congruence|reflexivity]. Qed.

Lemma includes_strings (acc : list (list N)) (x : list N) :
  includes (List.map JStr acc) (JStr x) = bool_decide (x ∈ acc).
Proof.
  unfold includes. induction acc as [|a acc IH]; simpl.
  - reflexivity.
  - rewrite IH, <- bool_decide_or. apply bool_decide_ext.
    rewrite elem_of_cons. intuition congruence.
Qed.

Lemma dedupe_strings_from (l acc : list (list N)) :
  fold_left (fun workList r => if includes workList r then workList else workList ++ [r])
    (List.map JStr l) (List.map JStr acc)
  = List.map JStr
      (fold_left (fun acc x => if bool_decide (x ∈ acc) then acc else acc ++ [x]) l acc).
Proof.
  revert acc; induction l as [|x l IH]; intros acc; simpl; [reflexivity|].
  rewrite includes_strings. destruct (bool_decide (x ∈ acc)); [apply IH|].
  rewrite <- IH. now rewrite List.map_app.
Qed.

Lemma collect_strings (l result : list (list N)) :
  collect (List.map JStr l) result = Returns (result ++ l).
Proof.
  revert result; induction l as [|x l IH]; intros result; simpl.
  - now rewrite app_nil_r.
  - unfold isPromise. rewrite andb_false_r, IH. now rewrite <- app_assoc.
Qed.

(** A plain array of strings is returned without its repetitions, in the
    order of the first occurrences. *)
Lemma addExtraRoutes_string_array (ref : nat) (l : list (list N)) :
  addExtraRoutes (JArray ref (List.map JStr l)) = ([], Returns (firstOccurrences l)).
Proof.
  pose proof (dedupe_strings_from l []) as Hdedupe. cbn [List.map] in Hdedupe.
  unfold addExtraRoutes, isPromise. cbn [truthy negb andb]. unfold dedupe.
  rewrite Hdedupe. now rewrite collect_strings.
Qed.

Lemma firstOccurrences_from (l acc : list (list N)) :
  NoDup acc ->
  let result := fold_left (fun acc x => if bool_decide (x ∈ acc) then acc else acc ++ [x])
                  l acc in
  NoDup result /\ forall x, x ∈ result <-> x ∈ acc \/ x ∈ l.
Proof.
  revert acc; induction l as [|y l IH]; intros acc Hacc; cbv zeta; simpl.
  - split; [exact Hacc|]. intros x. rewrite elem_of_nil. tauto.
  - destruct (bool_decide (y ∈ acc)) eqn:Hy.
    + apply bool_decide_eq_true in Hy. destruct (IH acc Hacc) as [Hnd Hin].
      split; [exact Hnd|]. intros x. rewrite Hin, elem_of_cons.
      intuition (subst; auto).
    + apply bool_decide_eq_false in Hy.
      assert (NoDup (acc ++ [y])) as Hacc'.
      { apply NoDup_app. split; [exact Hacc|]. split; [|apply NoDup_singleton].
        intros x Hx Hx'. apply list_elem_of_singleton in Hx'. now subst. }
      destruct (IH (acc ++ [y]) Hacc') as [Hnd Hin].
      split; [exact Hnd|]. intros x.
      rewrite Hin, elem_of_app, list_elem_of_singleton, elem_of_cons. tauto.
Qed.

(** What is returned for it has no repetition and the same elements. *)
Lemma firstOccurrences_spec (l : list (list N)) :
  NoDup (firstOccurrences l) /\ forall x, x ∈ firstOccurrences l <-> x ∈ l.
Proof.
  destruct (firstOccurrences_from l [] (NoDup_nil_2 (A := list N))) as [Hnd Hin].
  split; [exact Hnd|]. intros x. unfold firstOccurrences. rewrite Hin, elem_of_nil. tauto.
Qed.

(** C9 as stated fails: [undefined] and the number 0 are neither a string,
    an array nor a deferred value, and [addExtraRoutes] answers them with
    the empty list WITHOUT logging a warning. *)
Lemma C9_falsy_input_is_not_warned :
  (typeof JUndefined <> lit "string" /\ isArray JUndefined = false
   /\ isPromise JUndefined = false
   /\ addExtraRoutes JUndefined = ([], Returns []))
  /\ (typeof (JNum 0) <> lit "string" /\ isArray (JNum 0) = false
      /\ isPromise (JNum 0) = false
      /\ addExtraRoutes (JNum 0) = ([], Returns [])).
Proof. repeat split; try reflexivity; discriminate. Qed.

(** C9, amended: "a" gives ["a"]; ["a","b","a"] gives ["a","b"]; a TRUTHY
    value that is neither a string, an array nor a deferred value (such as
    42) gives the empty list and one warning that names its type; a falsy
    value gives the empty list and no warning. *)
Theorem C9_extra_route_shapes (x : JsVal) :
  typeof x <> lit "string" -> isArray x = false -> isPromise x = false ->
  addExtraRoutes (JStr (lit "a")) = ([], Returns [lit "a"])
  /\ addExtraRoutes (JArray 0 [JStr (lit "a"); JStr (lit "b"); JStr (lit "a")])
     = ([], Returns [lit "a"; lit "b"])
  /\ addExtraRoutes (JNum 42) = ([WarnExtraRoutesType (lit "number")], Returns [])
  /\ addExtraRoutes x
     = (if truthy x then [WarnExtraRoutesType (typeof x)] else [], Returns []).
Proof.
  intros Hstr Harr Hprom. repeat split.
  destruct (truthy x) eqn:Ht; [|now apply addExtraRoutes_falsy].
  unfold addExtraRoutes, isPromise in *. rewrite Ht in *. simpl negb. cbv iota.
  destruct x; simpl in *; try reflexivity; try discriminate.
  exfalso. apply Hstr. reflexivity.
Qed.

Lemma C9_extra_route_shapes_witness :
  addExtraRoutes (JStr (lit "a")) = ([], Returns [lit "a"])
  /\ addExtraRoutes (JArray 0 [JStr (lit "a"); JStr (lit "b"); JStr (lit "a")])
     = ([], Returns [lit "a"; lit "b"])
  /\ addExtraRoutes (JNum 42) = ([WarnExtraRoutesType (lit "number")], Returns [])
  /\ addExtraRoutes (JObject 7)
     = (if truthy (JObject 7) then [WarnExtraRoutesType (typeof (JObject 7))] else [],
        Returns []).
Proof.
  apply (C9_extra_route_shapes (JObject 7)).
  - discriminate.
  - reflexivity.
  - reflexivity.
Defined.

End RoutesProps.

(** * Properties of the string operations *)

Module JsProps.
Import Js.

Lemma startsWith_app (p rest : list N) : startsWith p (p ++ rest) = true.
Proof.
  induction p as [|a p IH]; simpl; [reflexivity|].
  now rewrite N.eqb_refl, IH.
Qed.

Lemma startsWith_inv (p s : list N) :
  startsWith p s = true -> s = p ++ drop (length p) s.
Proof.
  revert s; induction p as [|a p IH]; intros s H; simpl in *; [reflexivity|].
  destruct s as [|b s]; [discriminate|].
  apply andb_true_iff in H as [Hab Hrest]. apply N.eqb_eq in Hab. subst b.
  simpl. f_equal. now apply IH.
Qed.

(** Once a separator is found, the loop steps over the rest of it. *)
Lemma split_go_skip (sep x cur rest : list N) :
  split_go sep (length x) cur (x ++ rest) = split_go sep 0 cur rest.
Proof.
  induction x as [|c x IH]; simpl; [reflexivity|exact IH].
Qed.

Lemma indexOf_from_ge (sep s : list N) (k j : nat) :
  indexOf_from sep s k = Some j -> k <= j.
Proof.
  revert k; induction s as [|c s IH]; intros k H; simpl in H.
  - destruct (startsWith sep []); [injection H as <-; lia|discriminate].
  - destruct (startsWith sep (c :: s)); [injection H as <-; lia|].
    apply IH in H. lia.
Qed.

(** Without an occurrence of the separator, [split] returns the string. *)
Lemma split_go_indexOf_None (sep s cur : list N) (k : nat) :
  indexOf_from sep s k = None -> split_go sep 0 cur s = [rev cur ++ s].
Proof.
  revert cur k; induction s as [|c s IH]; intros cur k H; simpl in *.
  - now rewrite app_nil_r.
  - destruct (startsWith sep (c :: s)); [discriminate|].
    rewrite (IH (c :: cur) (S k) H). simpl. now rewrite <- app_assoc.
Qed.

(** With one, [split] cuts at the first occurrence and goes on behind it. *)
Lemma split_go_indexOf_Some (sep s cur : list N) (k i : nat) :
  sep <> [] -> indexOf_from sep s k = Some (k + i) ->
  split_go sep 0 cur s
  = (rev cur ++ take i s) :: split_go sep 0 [] (drop (i + length sep) s).
Proof.
  intros Hsep. revert cur k i; induction s as [|c s IH]; intros cur k i H.
  - simpl in H. destruct sep; [congruence|discriminate].
  - cbn [indexOf_from] in H. cbn [split_go].
    destruct (startsWith sep (c :: s)) eqn:Hstart.
    + assert (i = 0) as -> by (injection H; lia).
      cbn [take firstn]. rewrite app_nil_r. f_equal.
      apply startsWith_inv in Hstart.
      destruct sep as [|a sep']; [congruence|].
      cbn [length Nat.add] in *. cbn [drop skipn] in *.
      injection Hstart as _ Hs.
      rewrite Hs at 1. replace (S (length sep') - 1) with (length sep') by lia.
      apply split_go_skip.
    + pose proof (indexOf_from_ge _ _ _ _ H) as Hge.
      destruct i as [|i]; [lia|].
      replace (k + S i) with (S k + i) in H by lia.
      rewrite (IH (c :: cur) (S k) i H). simpl. now rewrite <- app_assoc.
Qed.

Lemma split_indexOf_None (sep s : list N) :
  indexOf sep s = None -> split sep s = [s].
Proof. intros H. unfold split. now rewrite (split_go_indexOf_None _ _ _ _ H). Qed.

Lemma split_indexOf_Some (sep s : list N) (i : nat) :
  sep <> [] -> indexOf sep s = Some i ->
  split sep s = take i s :: split sep (drop (i + length sep) s).
Proof.
  intros Hsep H. unfold split.
  now rewrite (split_go_indexOf_Some sep s [] 0 i Hsep H).
Qed.

(** ** Properties of an object *)

Lemma getProp_replaceProp_ne (k key : list N) (val : JsVal) (o : list (list N * JsVal)) :
  k <> key -> getProp k (replaceProp key val o) = getProp k o.
Proof.
  intros Hne. induction o as [|[k0 v0] o IH]; simpl; [reflexivity|].
  destruct (bool_decide (k0 = key)) eqn:Hk0; simpl.
  - apply bool_decide_eq_true in Hk0. subst k0.
    now rewrite !bool_decide_eq_false_2 by congruence.
  - destruct (bool_decide (k0 = k)); [reflexivity|exact IH].
Qed.

Lemma getProp_replaceProp_eq (key : list N) (val : JsVal) (o : list (list N * JsVal)) :
  is_Some (getProp key o) -> getProp key (replaceProp key val o) = Some val.
Proof.
  induction o as [|[k0 v0] o IH]; simpl; intros Hsome.
  - now destruct Hsome.
  - destruct (bool_decide (k0 = key)) eqn:Hk0; simpl; rewrite Hk0; [reflexivity|].
    now apply IH.
Qed.


Lemma getProp_insertIndex_ne (k key : list N) (n : N) (val : JsVal)
    (o : list (list N * JsVal)) :
  k <> key -> getProp k (insertIndex n key val o) = getProp k o.
Proof.
  intros Hne. induction o as [|[k0 v0] o IH]; simpl.
  - now rewrite bool_decide_eq_false_2 by congruence.
  - destruct (arrayIndex k0) as [m|]; [destruct (m <? n)%N|]; simpl;
      rewrite ?(bool_decide_eq_false_2 (key = k)) by congruence; try reflexivity.
    destruct (bool_decide (k0 = k)); [reflexivity|exact IH].
Qed.

Lemma getProp_insertIndex_eq (key : list N) (n : N) (val : JsVal)
    (o : list (list N * JsVal)) :
  getProp key (insertIndex n key val o) = Some val
  \/ is_Some (getProp key o).
Proof.
  induction o as [|[k0 v0] o IH]; simpl.
  - left. now rewrite bool_decide_eq_true_2.
  - destruct (bool_decide (k0 = key)) eqn:Hk0; [right; eauto|].
    destruct (arrayIndex k0) as [m|]; [destruct (m <? n)%N|]; simpl;
      rewrite ?Hk0, ?(bool_decide_eq_true_2 (key = key)) by reflexivity; auto.
Qed.


Lemma getProp_app (k : list N) (o o' : list (list N * JsVal)) :
  getProp k (o ++ o') = match getProp k o with Some v => Some v | None => getProp k o' end.
Proof.
  induction o as [|[k0 v0] o IH]; simpl; [reflexivity|].
  destruct (bool_decide (k0 = k)); [reflexivity|exact IH].
Qed.


(** A property that was set is read with the value it was given... *)
Lemma getProp_setProp_eq (key : list N) (val : JsVal) (o : list (list N * JsVal)) :
  getProp key (setProp key val o) = Some val.
Proof.
  unfold setProp. destruct (getProp key o) as [x|] eqn:Hget.
  - apply getProp_replaceProp_eq. rewrite Hget. eauto.
  - destruct (arrayIndex key) as [n|].
    + destruct (getProp_insertIndex_eq key n val o) as [Hin|[x Hx]]; [exact Hin|congruence].
    + rewrite getProp_app, Hget. simpl. now rewrite bool_decide_eq_true_2.
Qed.

(** ... and the others are read as before. *)
Lemma getProp_setProp_ne (k key : list N) (val : JsVal) (o : list (list N * JsVal)) :
  k <> key -> getProp k (setProp key val o) = getProp k o.
Proof.
  intros Hne. unfold setProp. destruct (getProp key o) as [x|].
  - now apply getProp_replaceProp_ne.
  - destruct (arrayIndex key) as [n|].
    + now apply getProp_insertIndex_ne.
    + rewrite getProp_app. simpl. rewrite bool_decide_eq_false_2 by congruence.
      now destruct (getProp k o).
Qed.


Lemma setProp_nil (key : list N) (val : JsVal) : setProp key val [] = [(key, val)].
Proof. unfold setProp. simpl. now destruct (arrayIndex key). Qed.

End JsProps.

(** * Properties of the transfer-state service *)

Module TransferStateProps.
Import Js TransferState Reference JsProps.

(** Case analysis on every test a goal still branches on. *)
Ltac branches :=
  repeat match goal with
         | |- context [if ?b then _ else _] => destruct b eqn:?
         | |- context [match ?x with _ => _ end] => destruct x eqn:?
         end.

(** ** The state store *)

Section Store.
Variable JSON_stringify : list (list N * JsVal) -> list N.

(** [saveState] writes the script element and nothing else. *)
Lemma saveState_stateBS w newState s :
  stateBS (fst (saveState JSON_stringify w newState s)) = stateBS s.
Proof. unfold saveState. branches; reflexivity. Qed.

Lemma saveState_returns w newState s :
  (isScullyRunning w = true -> is_Some (script s)) ->
  snd (saveState JSON_stringify w newState s) = Returns tt.
Proof.
  intros Hscript. unfold saveState.
  destruct (isScullyRunning w); [|reflexivity].
  destruct (Hscript eq_refl) as [text ->]. reflexivity.
Qed.

Lemma saveState_script w newState s :
  is_Some (script s) -> is_Some (script (fst (saveState JSON_stringify w newState s))).
Proof.
  intros [text Hs]. unfold saveState. rewrite Hs.
  destruct (isScullyRunning w); simpl; [eauto|now rewrite Hs].
Qed.

(** The snapshot that [setState] publishes. *)
Lemma setState_stateBS w name val s :
  stateBS (fst (setState JSON_stringify w name val s))
  = Some (setProp name val (default [] (stateBS s))).
Proof. unfold setState. now rewrite saveState_stateBS. Qed.

Lemma setState_script w name val s :
  is_Some (script s) -> is_Some (script (fst (setState JSON_stringify w name val s))).
Proof. intros H. unfold setState. now apply saveState_script. Qed.

(** [startMonitoring] creates the script element of a page being rendered,
    and never takes one away. *)
Lemma startMonitoring_script_created w s :
  isScullyRunning w = true -> is_Some (script (startMonitoring JSON_stringify w s)).
Proof.
  intros Hrun. unfold startMonitoring, setupStartNavMonitoring, setupEnvForTransferState.
  rewrite Hrun.
  destruct (isScullyGenerated w), (injectedInlineStateOnly w), (exposedTransferState w);
    simpl; try (apply saveState_script); simpl; eauto.
Qed.

Lemma startMonitoring_script_kept w s :
  is_Some (script s) -> is_Some (script (startMonitoring JSON_stringify w s)).
Proof.
  intros Hs. destruct (isScullyRunning w) eqn:Hrun.
  - now apply startMonitoring_script_created.
  - unfold startMonitoring, setupStartNavMonitoring, setupEnvForTransferState.
    rewrite Hrun.
    destruct (isScullyGenerated w), (injectedInlineStateOnly w); simpl; exact Hs.
Qed.
End Store.

(** ** The subscriptions: none of them touches the script element *)

Section Script.
Variable JSON_parse : list N -> option (list (list N * JsVal)).
Variable JSON_stringify : list (list N * JsVal) -> list N.
Variable mergePaths : list N -> list N -> list N.

Lemma nextUrl_step_script s e : script (fst (nextUrl_step s e)) = script s.
Proof. unfold nextUrl_step. branches; reflexivity. Qed.

Lemma pipeline_next_script url s p :
  script (fst (pipeline_next mergePaths url s p)) = script s.
Proof. unfold pipeline_next. branches; reflexivity. Qed.

Lemma pipelines_next_script url ps s :
  script (fst (pipelines_next mergePaths url s ps)) = script s.
Proof.
  revert s; induction ps as [|p ps IH]; intros s; simpl; [reflexivity|].
  pose proof (pipeline_next_script url s p) as Hp.
  destruct (pipeline_next mergePaths url s p) as [s1 p1]. simpl in Hp.
  specialize (IH s1). destruct (pipelines_next mergePaths url s1 ps) as [s2 ps2].
  simpl in *. congruence.
Qed.

Lemma fetchTransferState_resume_script url s :
  script (fetchTransferState_resume mergePaths url s) = script s.
Proof.
  unfold fetchTransferState_resume.
  destruct (bool_decide _); [reflexivity|].
  cbn [replay with_currentBaseUrl]. destruct (replay s) as [u|]; [|reflexivity].
  set (s0 := with_currentBaseUrl _ s).
  pose proof (pipeline_next_script u s0 {| outerOpen := true; inner := None |}) as Hp.
  destruct (pipeline_next mergePaths u s0 _) as [s1 p1]. simpl in *. exact Hp.
Qed.

Lemma fetchTransferState_script s :
  script (fetchTransferState mergePaths s) = script s.
Proof.
  unfold fetchTransferState. cbn [replay with_connected].
  destruct (replay s); [|reflexivity]. now rewrite fetchTransferState_resume_script.
Qed.

Lemma iter_resume_script url n s :
  script (Nat.iter n (fetchTransferState_resume mergePaths url) s) = script s.
Proof.
  induction n as [|n IH]; simpl; [reflexivity|].
  now rewrite fetchTransferState_resume_script.
Qed.

Lemma emit_script url s : script (emit mergePaths url s) = script s.
Proof.
  unfold emit. cbn [tracking with_replay].
  pose proof (pipelines_next_script url (tracking s) (with_replay (Some url) s)) as Hp.
  destruct (pipelines_next mergePaths url _ _) as [s1 ps]. simpl in Hp.
  now rewrite iter_resume_script.
Qed.

Lemma router_event_script e s : script (router_event mergePaths e s) = script s.
Proof.
  unfold router_event. destruct (connected s); [|reflexivity].
  pose proof (nextUrl_step_script s e) as Hn.
  destruct (nextUrl_step s e) as [s1 [url|]]; simpl in Hn; [|exact Hn].
  now rewrite emit_script.
Qed.

Lemma settle_script i response s : script (settle JSON_parse i response s) = script s.
Proof. unfold settle. branches; reflexivity. Qed.

(** Once created, the script element stays. *)
Lemma step_script s ev :
  is_Some (script s) -> is_Some (script (step JSON_parse JSON_stringify mergePaths s ev)).
Proof.
  intros Hs. destruct ev; simpl.
  - now apply startMonitoring_script_kept.
  - now rewrite router_event_script.
  - now rewrite fetchTransferState_script.
  - now apply setState_script.
  - now rewrite settle_script.
Qed.

Lemma run_script evs s :
  is_Some (script s) -> is_Some (script (run JSON_parse JSON_stringify mergePaths s evs)).
Proof.
  revert s; induction evs as [|ev evs IH]; intros s Hs; simpl; [exact Hs|].
  apply IH. now apply step_script.
Qed.
End Script.

(** C7: after [setState(k, v)] a read of [k] yields [v], and every other key
    of the previous snapshot is still read with the value it had. *)
Theorem C7_setState_then_read
    (JSON_stringify : list (list N * JsVal) -> list N) (w : Window)
    (k : list N) (v : JsVal) (s : Service) :
  let s' := fst (setState JSON_stringify w k v s) in
  pluck k s' = Some v
  /\ forall (prev : list (list N * JsVal)) (k' : list N) (x : JsVal),
       stateBS s = Some prev -> k' <> k -> getProp k' prev = Some x ->
       pluck k' s' = Some x.
Proof.
  cbv zeta. unfold pluck. rewrite setState_stateBS. split.
  - now rewrite getProp_setProp_eq.
  - intros prev k' x Hprev Hne Hx. rewrite Hprev. simpl.
    rewrite getProp_setProp_ne by exact Hne. now rewrite Hx.
Qed.

Lemma C7_setState_then_read_witness :
  let s := with_stateBS (Some [(lit "title", JStr (lit "A"))]) new_service in
  let s' := fst (setState Samples.stringify Samples.rendering (lit "author")
                   (JStr (lit "B")) s) in
  pluck (lit "author") s' = Some (JStr (lit "B"))
  /\ pluck (lit "title") s' = Some (JStr (lit "A")).
Proof.
  intros s s'.
  destruct (C7_setState_then_read Samples.stringify Samples.rendering (lit "author")
              (JStr (lit "B")) s) as [Hread Hkept].
  split; [exact Hread|].
  apply (Hkept [(lit "title", JStr (lit "A"))]).
  - reflexivity.
  - discriminate.
  - vm_compute. reflexivity.
Defined.

(** Under Scully, with no script element to write to, [saveState] throws. *)
Lemma saveState_throws JSON_stringify w newState s :
  isScullyRunning w = true -> script s = None ->
  snd (saveState JSON_stringify w newState s) = Throws (JObject 0).
Proof. intros Hrun Hscript. unfold saveState. now rewrite Hrun, Hscript. Qed.

(** C10, amended: when [setState(name, val)] is called while the current
    snapshot is [undefined], it publishes the snapshot with the single key
    [name], and no other key is readable, whatever the snapshots before
    were.  It returns normally when the page is not being rendered by Scully
    or the script element exists, as it does on every service on which
    [startMonitoring] has run in that window; under Scully without the
    script element it throws, after the snapshot has been published. *)
Theorem C10_setState_publishes_the_single_key_snapshot
    (JSON_parse : list N -> option (list (list N * JsVal)))
    (JSON_stringify : list (list N * JsVal) -> list N)
    (mergePaths : list N -> list N -> list N)
    (w : Window) (evs : list Event) (name : list N) (val : JsVal) (s : Service) :
  stateBS s = None ->
  let r := setState JSON_stringify w name val s in
  stateBS (fst r) = Some [(name, val)]
  /\ (forall k, k <> name -> pluck k (fst r) = Some JUndefined)
  /\ ((isScullyRunning w = true -> is_Some (script s)) -> snd r = Returns tt)
  /\ (s = run JSON_parse JSON_stringify mergePaths
            (startMonitoring JSON_stringify w new_service) evs ->
      snd r = Returns tt)
  /\ (isScullyRunning w = true -> script s = None -> snd r = Throws (JObject 0)).
Proof.
  intros Hundef r.
  assert (stateBS (fst r) = Some [(name, val)]) as Hpub.
  { subst r. rewrite setState_stateBS, Hundef. simpl. now rewrite setProp_nil. }
  split; [exact Hpub|]. split.
  { intros k Hk. unfold pluck. rewrite Hpub. simpl.
    now rewrite bool_decide_eq_false_2 by congruence. }
  split; [|split].
  - intros Hscript. subst r. unfold setState. now apply saveState_returns.
  - intros ->. subst r. unfold setState. apply saveState_returns.
    intros Hrun. cbn [script with_stateBS].
    apply run_script. now apply startMonitoring_script_created.
  - intros Hrun Hscript. subst r. unfold setState. now apply saveState_throws.
Qed.

Lemma C10_setState_publishes_the_single_key_snapshot_witness :
  let s := run Samples.parse Samples.stringify Samples.mergePaths
             (startMonitoring Samples.stringify Samples.rendering new_service)
             [SetState Samples.rendering (lit "title") (JStr (lit "A"));
              GetState (lit "title");
              Router (NavigationStart (lit "/blog/b"))] in
  let r := setState Samples.stringify Samples.rendering (lit "author") (JStr (lit "B")) s in
  stateBS (fst r) = Some [(lit "author", JStr (lit "B"))]
  /\ pluck (lit "title") (fst r) = Some JUndefined
  /\ snd r = Returns tt.
Proof.
  intros s r.
  assert (stateBS s = None) as Hundef by (vm_compute; reflexivity).
  destruct (C10_setState_publishes_the_single_key_snapshot Samples.parse Samples.stringify
              Samples.mergePaths Samples.rendering
              [SetState Samples.rendering (lit "title") (JStr (lit "A"));
               GetState (lit "title");
               Router (NavigationStart (lit "/blog/b"))]
              (lit "author") (JStr (lit "B")) s Hundef)
    as (Hpub & Hother & _ & Hstarted & _).
  split; [exact Hpub|]. split.
  - apply Hother. discriminate.
  - apply Hstarted. reflexivity.
Defined.

(** C10 as stated fails: on a page that Scully is rendering, a service on
    which [startMonitoring] never ran has no script element; a call of
    [getState] subscribes to the router, the start of a navigation makes the
    snapshot [undefined], and [setState] then publishes the new snapshot
    and THROWS when [saveState] writes to the missing element. *)
Lemma C10_setState_throws_without_script_element :
  let s := run Samples.parse Samples.stringify Samples.mergePaths new_service
             [GetState (lit "title"); Router (NavigationStart (lit "/blog/b"))] in
  let r := setState Samples.stringify Samples.rendering (lit "author") (JStr (lit "B")) s in
  stateBS s = None
  /\ script s = None
  /\ stateBS (fst r) = Some [(lit "author", JStr (lit "B"))]
  /\ snd r = Throws (JObject 0)
  /\ snd r <> Returns tt.
Proof. vm_compute. repeat split. discriminate. Qed.

(** ** The navigation observer *)


(** Where section 8 and the latch agree: the initial URL comes first or
    not at all. *)
Lemma latched_emission_as_stated (initial : option (list N)) (navs : list (list N * list N)) :
  Forall (fun nav => initial <> Some (fst nav)) (tail navs) ->
  latched_emission initial navs = stated_emission initial navs.
Proof.
  destruct navs as [|nav rest]; [reflexivity|]. simpl. intros Hrest.
  destruct (bool_decide (initial = Some (fst nav))); [reflexivity|]. simpl. f_equal.
  induction Hrest as [|nav' rest Hnav' _ IH]; simpl; [reflexivity|].
  rewrite bool_decide_eq_false_2 by exact Hnav'. now rewrite IH.
Qed.




(** ** The rehydration driver *)

Lemma with_connected_id (s : Service) : connected s = true -> with_connected true s = s.
Proof. destruct s; simpl; intros ->; reflexivity. Qed.

Section Driver.
Variable mergePaths : list N -> list N -> list N.

(** A call for a URL of the base already tracked returns at the guard. *)
Lemma fetchTransferState_resume_tracked url s :
  currentBaseUrl s = base url -> fetchTransferState_resume mergePaths url s = s.
Proof.
  intros Hbase. unfold fetchTransferState_resume.
  now rewrite bool_decide_eq_true_2 by exact Hbase.
Qed.

Lemma iter_resume_tracked url n s :
  currentBaseUrl s = base url ->
  Nat.iter n (fetchTransferState_resume mergePaths url) s = s.
Proof.
  intros Hbase. induction n as [|n IH]; simpl; [reflexivity|].
  rewrite IH. now apply fetchTransferState_resume_tracked.
Qed.

Lemma fetchTransferState_tracked url s :
  replay s = Some url -> currentBaseUrl s = base url ->
  fetchTransferState mergePaths s = with_connected true s.
Proof.
  intros Hreplay Hbase. unfold fetchTransferState.
  cbn [replay with_connected]. rewrite Hreplay.
  now apply fetchTransferState_resume_tracked.
Qed.

(** Calls made while the base of the last URL is tracked change neither
    the effects nor the subscriptions. *)
Lemma iter_fetchTransferState_tracked url n s :
  replay s = Some url -> currentBaseUrl s = base url ->
  let s' := Nat.iter n (fetchTransferState mergePaths) s in
  replay s' = Some url /\ currentBaseUrl s' = base url
  /\ effects s' = effects s /\ tracking s' = tracking s
  /\ inlineOnly s' = inlineOnly s /\ stateBS s' = stateBS s.
Proof.
  intros Hreplay Hbase. cbv zeta. induction n as [|n IH]; [now repeat split|].
  destruct IH as (Hr & Hb & He & Ht & Hi & Hs).
  rewrite Nat.iter_succ, (fetchTransferState_tracked url _ Hr Hb).
  now repeat split.
Qed.

(** A URL of the tracked base reaches the one live subscription: the read
    of before is dropped and ONE new read starts, for this URL. *)
Lemma emit_tracked url s p :
  tracking s = [p] -> outerOpen p = true -> currentBaseUrl s = base url ->
  emit mergePaths url s
  = with_waiting 0
      (with_tracking [{| outerOpen := true; inner := Some (read s url) |}]
         (with_effects (effects s ++ [request mergePaths (read s url)])
            (with_replay (Some url) s))).
Proof.
  intros Htrack Hopen Hbase. unfold emit.
  cbn [tracking with_replay]. rewrite Htrack.
  cbn [pipelines_next]. unfold pipeline_next. rewrite Hopen.
  cbn [currentBaseUrl with_replay].
  rewrite bool_decide_eq_true_2 by (symmetry; exact Hbase).
  now rewrite iter_resume_tracked.
Qed.
End Driver.

(** C2, amended: while one subscription tracks a base route, each resolved
    URL of that base starts exactly one fetch, for that URL, however many
    calls of [fetchTransferState] accompany it; two consecutive URLs of the
    same base make two fetches, under the one subscription. *)
Theorem C2_one_fetch_for_each_resolved_url
    (mergePaths : list N -> list N -> list N) (s : Service) (p : Pipeline)
    (url1 url2 : list N) (calls1 calls2 : nat) :
  tracking s = [p] -> outerOpen p = true ->
  currentBaseUrl s = base url1 -> base url2 = base url1 ->
  let s1 := Nat.iter calls1 (fetchTransferState mergePaths) (emit mergePaths url1 s) in
  let s2 := Nat.iter calls2 (fetchTransferState mergePaths) (emit mergePaths url2 s1) in
  effects s2
  = effects s ++ [request mergePaths (read s url1); request mergePaths (read s url2)]
  /\ fetches (effects s2) = fetches (effects s) + 2
  /\ tracking s2 = [{| outerOpen := true; inner := Some (read s url2) |}].
Proof.
  intros Htrack Hopen Hbase Hsame s1 s2.
  pose proof (emit_tracked mergePaths url1 s p Htrack Hopen Hbase) as Hemit1.
  destruct (iter_fetchTransferState_tracked mergePaths url1 calls1
              (emit mergePaths url1 s)) as (Hr1 & Hb1 & He1 & Ht1 & Hi1 & _);
    [now rewrite Hemit1 | now rewrite Hemit1 |].
  fold s1 in Hr1, Hb1, He1, Ht1, Hi1. rewrite Hemit1 in He1, Ht1, Hi1.
  cbn [effects tracking inlineOnly with_waiting with_tracking with_effects with_replay]
    in He1, Ht1, Hi1.
  assert (currentBaseUrl s1 = base url2) as Hb1' by congruence.
  pose proof (emit_tracked mergePaths url2 s1 _ Ht1 eq_refl Hb1') as Hemit2.
  destruct (iter_fetchTransferState_tracked mergePaths url2 calls2
              (emit mergePaths url2 s1)) as (_ & _ & He2 & Ht2 & _);
    [now rewrite Hemit2 | now rewrite Hemit2 |].
  fold s2 in He2, Ht2. rewrite Hemit2 in He2, Ht2.
  cbn [effects tracking with_waiting with_tracking with_effects with_replay] in He2, Ht2.
  assert (read s1 url2 = read s url2) as Hread by (unfold read; now rewrite Hi1).
  rewrite Hread in He2, Ht2.
  assert (effects s2
          = effects s ++ [request mergePaths (read s url1); request mergePaths (read s url2)])
    as Heff by (rewrite He2, He1, <- app_assoc; reflexivity).
  split; [exact Heff|]. split; [|exact Ht2].
  rewrite Heff. unfold fetches. rewrite List.filter_app, length_app.
  unfold request. destruct (read s url1), (read s url2); reflexivity.
Qed.

Lemma C2_one_fetch_for_each_resolved_url_witness :
  let s := run Samples.parse Samples.stringify Samples.mergePaths new_service
             ([StartMonitoring (Samples.generated (lit "/") false); GetState (lit "title")]
              ++ Samples.navigate (lit "/") ++ Samples.navigate (lit "/blog")) in
  let s1 := Nat.iter 2 (fetchTransferState Samples.mergePaths)
              (emit Samples.mergePaths (lit "/blog/a") s) in
  let s2 := Nat.iter 3 (fetchTransferState Samples.mergePaths)
              (emit Samples.mergePaths (lit "/blog/b") s1) in
  effects s2
  = effects s ++ [Fetch (lit "/blog/a/data.json") AsJson;
                  Fetch (lit "/blog/b/data.json") AsJson]
  /\ fetches (effects s2) = fetches (effects s) + 2
  /\ tracking s2 = [{| outerOpen := true; inner := Some (ReadFromJson (lit "/blog/b")) |}].
Proof.
  intros s.
  apply (C2_one_fetch_for_each_resolved_url Samples.mergePaths s
           {| outerOpen := true; inner := Some (ReadFromJson (lit "/blog")) |}
           (lit "/blog/a") (lit "/blog/b") 2 3).
  - vm_compute. reflexivity.
  - reflexivity.
  - vm_compute. reflexivity.
  - vm_compute. reflexivity.
Defined.

(** C2 as stated fails: "/blog/a" and "/blog/b" have the same first path
    segment, and the driver fetches the state data of both. *)
Lemma C2_second_url_is_fetched_as_well :
  let s := run Samples.parse Samples.stringify Samples.mergePaths new_service
             ([StartMonitoring (Samples.generated (lit "/") false); GetState (lit "title")]
              ++ Samples.navigate (lit "/") ++ Samples.navigate (lit "/blog/a")
              ++ Samples.navigate (lit "/blog/b")) in
  base (lit "/blog/a") = base (lit "/blog/b")
  /\ effects s = [Fetch (lit "/blog/a/data.json") AsJson;
                  Fetch (lit "/blog/b/data.json") AsJson]
  /\ fetches (effects s) = 2.
Proof. vm_compute. repeat split. Qed.

(** C5, amended: a call of [fetchTransferState] that finds a resolved URL
    of the tracked base route takes no action, the service is left as it
    is; but the observer publishes the transient [undefined] snapshot at the
    start of every navigation that is not the suppressed initial one,
    whatever the base route of its target. *)
Theorem C5_tracked_base_call_takes_no_action
    (mergePaths : list N -> list N -> list N) (s : Service) (url : list N) :
  connected s = true -> replay s = Some url -> currentBaseUrl s = base url ->
  fetchTransferState mergePaths s = s
  /\ forall next, initialUrl s <> Some next ->
       stateBS (router_event mergePaths (NavigationStart next) s) = None.
Proof.
  intros Hconn Hreplay Hbase. split.
  - rewrite (fetchTransferState_tracked mergePaths url s Hreplay Hbase).
    now apply with_connected_id.
  - intros next Hnext. unfold router_event. rewrite Hconn.
    cbn [nextUrl_step]. now rewrite bool_decide_eq_false_2 by exact Hnext.
Qed.

Lemma C5_tracked_base_call_takes_no_action_witness :
  let s := run Samples.parse Samples.stringify Samples.mergePaths new_service
             ([StartMonitoring (Samples.generated (lit "/") false); GetState (lit "title")]
              ++ Samples.navigate (lit "/") ++ Samples.navigate (lit "/blog/a")
              ++ [Settled 0 (Some (lit "{A}"))]) in
  fetchTransferState Samples.mergePaths s = s
  /\ forall next, initialUrl s <> Some next ->
       stateBS (router_event Samples.mergePaths (NavigationStart next) s) = None.
Proof.
  intros s.
  apply (C5_tracked_base_call_takes_no_action Samples.mergePaths s (lit "/blog/a")).
  - reflexivity.
  - vm_compute. reflexivity.
  - vm_compute. reflexivity.
Defined.

(** C5 as stated fails: while "blog" is tracked and the snapshot holds a
    title, the navigation to "/blog/b" publishes [undefined] when it starts
    and makes the driver fetch when it ends. *)
Lemma C5_same_base_navigation_resets_snapshot :
  let s := run Samples.parse Samples.stringify Samples.mergePaths new_service
             ([StartMonitoring (Samples.generated (lit "/") false); GetState (lit "title")]
              ++ Samples.navigate (lit "/") ++ Samples.navigate (lit "/blog/a")
              ++ [Settled 0 (Some (lit "{A}"))]) in
  currentBaseUrl s = base (lit "/blog/b")
  /\ stateBS s = Some [(lit "title", JStr (lit "A"))]
  /\ stateBS (step Samples.parse Samples.stringify Samples.mergePaths s
                (Router (NavigationStart (lit "/blog/b")))) = None
  /\ effects (run Samples.parse Samples.stringify Samples.mergePaths s
                (Samples.navigate (lit "/blog/b")))
     = effects s ++ [Fetch (lit "/blog/b/data.json") AsJson].
Proof. vm_compute. repeat split. Qed.

(** ** Reading the state data *)

Lemma SCULLY_STATE_START_nonempty : SCULLY_STATE_START <> [].
Proof. discriminate. Qed.

Lemma SCULLY_STATE_END_nonempty : SCULLY_STATE_END <> [].
Proof. discriminate. Qed.

(** A page without the start marker: [split(...)[1]] is [undefined]. *)
Lemma newStateStr_no_start (html : list N) :
  indexOf SCULLY_STATE_START html = None -> newStateStr html = None.
Proof. intros H. unfold newStateStr. now rewrite (split_indexOf_None _ _ H). Qed.

(** A page with one start marker and an end marker behind it: the text
    between the two. *)
Lemma newStateStr_between (pre payload post : list N) :
  let rest := payload ++ SCULLY_STATE_END ++ post in
  indexOf SCULLY_STATE_START (pre ++ SCULLY_STATE_START ++ rest) = Some (length pre) ->
  indexOf SCULLY_STATE_START rest = None ->
  indexOf SCULLY_STATE_END rest = Some (length payload) ->
  newStateStr (pre ++ SCULLY_STATE_START ++ rest) = Some payload.
Proof.
  intros rest Hfirst Honce Hend. unfold newStateStr.
  rewrite (split_indexOf_Some _ _ _ SCULLY_STATE_START_nonempty Hfirst).
  rewrite <- drop_drop, !drop_app_length.
  rewrite (split_indexOf_None _ _ Honce).
  rewrite (split_indexOf_Some _ _ _ SCULLY_STATE_END_nonempty Hend).
  subst rest. now rewrite take_app_length.
Qed.

Lemma readResult_fails JSON_parse r response :
  ReadFails JSON_parse r response -> readResult JSON_parse r response = None.
Proof.
  intros [r'|url body Hbody|url html Hstart|url html str Hstr Hparse]; simpl.
  - now destruct r'.
  - exact Hbody.
  - unfold readFromIndex_then. now rewrite newStateStr_no_start.
  - unfold readFromIndex_then. now rewrite Hstr.
Qed.

(** C6: when the read of a subscription fails (the request is rejected, the
    data is not JSON, or the page lacks the start marker), the driver logs
    one warning and publishes the empty object; [settle] is total, nothing
    is thrown. *)
Theorem C6_failed_read_publishes_empty_state
    (JSON_parse : list N -> option (list (list N * JsVal))) (s : Service)
    (i : nat) (p : Pipeline) (r : Request) (response : option (list N)) :
  tracking s !! i = Some p -> inner p = Some r -> ReadFails JSON_parse r response ->
  let s' := settle JSON_parse i response s in
  stateBS s' = Some [] /\ effects s' = effects s ++ [ConsoleWarn].
Proof.
  intros Hp Hr Hfail. cbv zeta. unfold settle. rewrite Hp.
  destruct p as [open inflight]. simpl in Hr. subst inflight.
  rewrite (readResult_fails _ _ _ Hfail). split; reflexivity.
Qed.

Lemma C6_failed_read_publishes_empty_state_witness :
  let s := run Samples.parse Samples.stringify Samples.mergePaths new_service
             ([StartMonitoring (Samples.generated (lit "/") true); GetState (lit "title")]
              ++ Samples.navigate (lit "/") ++ Samples.navigate (lit "/blog/a")) in
  let s' := settle Samples.parse 0 (Some (lit "<html><body>no state</body></html>")) s in
  stateBS s' = Some [] /\ effects s' = effects s ++ [ConsoleWarn].
Proof.
  intros s.
  apply (C6_failed_read_publishes_empty_state Samples.parse s 0
           {| outerOpen := true; inner := Some (ReadFromIndex (lit "/blog/a")) |}
           (ReadFromIndex (lit "/blog/a"))
           (Some (lit "<html><body>no state</body></html>"))).
  - vm_compute. reflexivity.
  - reflexivity.
  - apply start_marker_missing. vm_compute. reflexivity.
Defined.

(** C3, amended: with [inlineStateOnly] set, the driver obtains the new
    snapshot by fetching [url + '/index.html'] over the network, as text,
    and parsing as JSON the text that stands in the FETCHED page between
    the start marker and the end marker behind it. *)
Theorem C3_inline_only_reads_the_fetched_index_page
    (JSON_parse : list N -> option (list (list N * JsVal)))
    (mergePaths : list N -> list N -> list N) (s : Service) (url : list N)
    (i : nat) (p : Pipeline) (pre payload post : list N) :
  inlineOnly s = true ->
  let rest := payload ++ SCULLY_STATE_END ++ post in
  let html := pre ++ SCULLY_STATE_START ++ rest in
  indexOf SCULLY_STATE_START html = Some (length pre) ->
  indexOf SCULLY_STATE_START rest = None ->
  indexOf SCULLY_STATE_END rest = Some (length payload) ->
  request mergePaths (read s url) = Fetch (url ++ lit "/index.html") AsText
  /\ readResult JSON_parse (read s url) (Some html) = JSON_parse payload
  /\ forall newState,
       tracking s !! i = Some p -> inner p = Some (read s url) ->
       JSON_parse payload = Some newState ->
       stateBS (settle JSON_parse i (Some html) s) = Some newState.
Proof.
  intros Hinline rest html Hfirst Honce Hend.
  assert (readResult JSON_parse (read s url) (Some html) = JSON_parse payload) as Hread.
  { unfold read. rewrite Hinline. simpl. unfold readFromIndex_then.
    exact (f_equal (fun o => match o with Some str => JSON_parse str | None => None end)
             (newStateStr_between pre payload post Hfirst Honce Hend)). }
  split; [unfold read; now rewrite Hinline|]. split; [exact Hread|].
  intros newState Hp Hr Hparse. unfold settle. rewrite Hp.
  destruct p as [open inflight]. simpl in Hr. subst inflight.
  rewrite Hread, Hparse. destruct open; reflexivity.
Qed.

Lemma C3_inline_only_reads_the_fetched_index_page_witness :
  let s := run Samples.parse Samples.stringify Samples.mergePaths new_service
             ([StartMonitoring (Samples.generated (lit "/") true); GetState (lit "title")]
              ++ Samples.navigate (lit "/") ++ Samples.navigate (lit "/blog/a")) in
  let html := lit "<script>" ++ SCULLY_STATE_START ++ lit "{A}" ++ SCULLY_STATE_END
              ++ lit "</script>" in
  request Samples.mergePaths (read s (lit "/blog/a"))
  = Fetch (lit "/blog/a/index.html") AsText
  /\ readResult Samples.parse (read s (lit "/blog/a")) (Some html)
     = Some [(lit "title", JStr (lit "A"))]
  /\ stateBS (settle Samples.parse 0 (Some html) s)
     = Some [(lit "title", JStr (lit "A"))].
Proof.
  intros s html.
  destruct (C3_inline_only_reads_the_fetched_index_page Samples.parse Samples.mergePaths
              s (lit "/blog/a") 0
              {| outerOpen := true; inner := Some (ReadFromIndex (lit "/blog/a")) |}
              (lit "<script>") (lit "{A}") (lit "</script>"))
    as (Hrequest & Hread & Hsettle).
  - vm_compute. reflexivity.
  - vm_compute. reflexivity.
  - vm_compute. reflexivity.
  - vm_compute. reflexivity.
  - split; [exact Hrequest|]. split; [exact Hread|].
    apply Hsettle.
    + vm_compute. reflexivity.
    + vm_compute. reflexivity.
    + vm_compute. reflexivity.
Defined.

(** C3 as stated fails: in inline-only mode the driver DOES fetch over the
    network ([/blog/a/index.html], as text), and the snapshot it publishes
    is cut out of whatever page the network answers with, not out of the
    document that is loaded: the same service, two answers, two snapshots. *)
Lemma C3_inline_only_goes_over_the_network :
  let s := run Samples.parse Samples.stringify Samples.mergePaths new_service
             ([StartMonitoring (Samples.generated (lit "/") true); GetState (lit "title")]
              ++ Samples.navigate (lit "/") ++ Samples.navigate (lit "/blog/a")) in
  let page x := lit "<script>" ++ SCULLY_STATE_START ++ x ++ SCULLY_STATE_END
                ++ lit "</script>" in
  inlineOnly s = true
  /\ effects s = [Fetch (lit "/blog/a/index.html") AsText]
  /\ stateBS (settle Samples.parse 0 (Some (page (lit "{A}"))) s)
     = Some [(lit "title", JStr (lit "A"))]
  /\ stateBS (settle Samples.parse 0 (Some (page (lit "{B}"))) s)
     = Some [(lit "title", JStr (lit "B"))].
Proof. vm_compute. repeat split. Qed.

End TransferStateProps.

(** * Further properties of route discovery *)

Module RoutesExtra.
Import Js Routes Reference Notions RoutesProps.

(** ** Where the static routes come from *)

Section Static.
Variable join : list N -> list N -> list N.
Variable existFolder : list N -> bool.
Variable sge : bool.
Variable parseAngularRoutes : list N -> list (list N) -> Completion (list (list N)).
Variable excludedFiles : list (list N).

(** The path handed to the parser and the warning that goes with it. *)
Lemma staticRoutes_search (appRootFolder : list N) :
  let found := List.find existFolder (tsconfigCandidates join appRootFolder) in
  staticRoutes join existFolder sge parseAngularRoutes excludedFiles appRootFolder
  = let log := match found with
               | Some _ => []
               | None => [WarnNoTsconfig (join appRootFolder (lit "../../tsconfig.app.json"))]
               end in
    match parseAngularRoutes (default appRootFolder found) excludedFiles with
    | Returns routes => (log, routes)
    | Throws e => (log ++ (if sge then [ConsoleError e] else []) ++ [ErrorReadingRoutes], [])
    end.
Proof.
  unfold staticRoutes, tsconfigCandidates. cbn [List.find].
  destruct (existFolder (join appRootFolder (lit "tsconfig.app.json"))) eqn:H1.
  - cbn [negb]. rewrite H1. cbn [negb]. rewrite H1. reflexivity.
  - cbn [negb].
    destruct (existFolder (join appRootFolder (lit "../tsconfig.app.json"))) eqn:H2.
    + cbn [negb]. rewrite H2. reflexivity.
    + cbn [negb].
      destruct (existFolder (join appRootFolder (lit "../../tsconfig.app.json"))) eqn:H3;
        reflexivity.
Qed.
End Static.

(** X1: the routes are parsed from the first of [tsconfig.app.json],
    [../tsconfig.app.json], [../../tsconfig.app.json] (under the root folder)
    that exists, with nothing logged; when none exists they are parsed from
    the root folder itself, after one warning that names the third place. *)
Theorem X1_routes_come_from_first_existing_tsconfig
    (join : list N -> list N -> list N) (existFolder : list N -> bool) (sge : bool)
    (parseAngularRoutes : list N -> list (list N) -> Completion (list (list N)))
    (excludedFiles : list (list N)) (appRootFolder : list N) (routes : list (list N)) :
  let found := List.find existFolder (tsconfigCandidates join appRootFolder) in
  parseAngularRoutes (default appRootFolder found) excludedFiles = Returns routes ->
  staticRoutes join existFolder sge parseAngularRoutes excludedFiles appRootFolder
  = (match found with
     | Some _ => []
     | None => [WarnNoTsconfig (join appRootFolder (lit "../../tsconfig.app.json"))]
     end, routes).
Proof.
  intros found Hparse. rewrite staticRoutes_search. cbv zeta. fold found.
  now rewrite Hparse.
Qed.

Lemma X1_routes_come_from_first_existing_tsconfig_witness :
  staticRoutes (fun a b => a ++ lit "/" ++ b)
    (fun f => bool_decide (f = lit "app/../tsconfig.app.json")) false
    (fun f _ => if bool_decide (f = lit "app/../tsconfig.app.json")
                then Returns [lit "/home"; lit "/about"] else Throws JNull)
    [] (lit "app")
  = ([], [lit "/home"; lit "/about"]).
Proof.
  rewrite (X1_routes_come_from_first_existing_tsconfig (fun a b => a ++ lit "/" ++ b)
             (fun f => bool_decide (f = lit "app/../tsconfig.app.json")) false
             (fun f _ => if bool_decide (f = lit "app/../tsconfig.app.json")
                         then Returns [lit "/home"; lit "/about"] else Throws JNull)
             [] (lit "app") [lit "/home"; lit "/about"]).
  - vm_compute. reflexivity.
  - vm_compute. reflexivity.
Defined.

(** X2: when the parser throws, [traverseAppRoutes] still returns: the
    extra routes alone, with "/" appended unless one of them already trims
    to "/" or to the empty string; the error is reported, and dumped to the
    console only with [--showGuessError]. *)
Theorem X2_parser_failure_keeps_extra_routes
    (join : list N -> list N -> list N) (existFolder : list N -> bool) (sge : bool)
    (parseAngularRoutes : list N -> list (list N) -> Completion (list (list N)))
    (excludedFiles : list (list N)) (extraRoutesConfig : JsVal) (appRootFolder : list N)
    (log : list LogEntry) (extraRoutes : list (list N)) (e : JsVal) :
  let found := List.find existFolder (tsconfigCandidates join appRootFolder) in
  addExtraRoutes extraRoutesConfig = (log, Returns extraRoutes) ->
  parseAngularRoutes (default appRootFolder found) excludedFiles = Throws e ->
  traverseAppRoutes join existFolder sge parseAngularRoutes excludedFiles
    extraRoutesConfig appRootFolder
  = (log
     ++ match found with
        | Some _ => []
        | None => [WarnNoTsconfig (join appRootFolder (lit "../../tsconfig.app.json"))]
        end
     ++ (if sge then [ConsoleError e] else []) ++ [ErrorReadingRoutes],
     Returns (extraRoutes ++ if existsb isRoot extraRoutes then [] else [lit "/"])).
Proof.
  intros found Hextra Hparse. unfold traverseAppRoutes.
  rewrite Hextra, staticRoutes_search. cbv zeta. fold found. rewrite Hparse.
  cbn [app]. rewrite findIndex_minus_one.
  destruct (existsb isRoot extraRoutes); cbn [negb]; [now rewrite app_nil_r|reflexivity].
Qed.

Lemma X2_parser_failure_keeps_extra_routes_witness :
  traverseAppRoutes (fun a b => a ++ lit "/" ++ b) (fun _ => false) true
    (fun _ _ => Throws (JStr (lit "lazy route"))) []
    (JArray 0 [JStr (lit "/a"); JStr (lit "/b")]) (lit "app")
  = ([WarnNoTsconfig (lit "app/../../tsconfig.app.json");
      ConsoleError (JStr (lit "lazy route")); ErrorReadingRoutes],
     Returns [lit "/a"; lit "/b"; lit "/"]).
Proof.
  apply (X2_parser_failure_keeps_extra_routes (fun a b => a ++ lit "/" ++ b)
           (fun _ => false) true (fun _ _ => Throws (JStr (lit "lazy route"))) []
           (JArray 0 [JStr (lit "/a"); JStr (lit "/b")]) (lit "app")
           [] [lit "/a"; lit "/b"] (JStr (lit "lazy route"))).
  - reflexivity.
  - reflexivity.
Defined.

(** ** The work list and the final loop *)

Lemma dedupe_fold (elems : list JsVal) : dedupe elems = fold_left keep elems [].
Proof. reflexivity. Qed.

(** The work list only grows. *)
Lemma keep_fold_prefix (elems acc : list JsVal) :
  exists more, fold_left keep elems acc = acc ++ more.
Proof.
  revert acc; induction elems as [|r elems IH]; intros acc; simpl.
  - exists []. now rewrite app_nil_r.
  - unfold keep at 2. destruct (includes acc r); [apply IH|].
    destruct (IH (acc ++ [r])) as [more ->]. exists (r :: more).
    now rewrite <- app_assoc.
Qed.

Lemma includes_strings_other (acc : list (list N)) (v : JsVal) :
  (forall s, v <> JStr s) -> includes (List.map JStr acc) v = false.
Proof.
  intros Hv. unfold includes. induction acc as [|a acc IH]; simpl; [reflexivity|].
  rewrite IH, orb_false_r. destruct v; try reflexivity. now destruct (Hv s).
Qed.

Lemma keep_fold_strings (l : list (list N)) :
  fold_left keep (List.map JStr l) [] = List.map JStr (firstOccurrences l).
Proof. exact (dedupe_strings_from l []). Qed.

(** Strings at the head of the work list go to the result as they are. *)
Lemma collect_strings_then (l : list (list N)) (rest : list JsVal) (result : list (list N)) :
  collect (List.map JStr l ++ rest) result = collect rest (result ++ l).
Proof.
  revert result; induction l as [|x l IH]; intros result; simpl.
  - now rewrite app_nil_r.
  - unfold isPromise. rewrite andb_false_r, IH. now rewrite <- app_assoc.
Qed.

Lemma pushStrings_strings (xs result : list (list N)) :
  pushStrings result (List.map JStr xs) = result ++ xs.
Proof.
  unfold pushStrings. revert result; induction xs as [|x xs IH]; intros result; simpl.
  - now rewrite app_nil_r.
  - rewrite IH. now rewrite <- app_assoc.
Qed.

(** X3: a rejected deferred value makes [addExtraRoutes] throw its reason,
    be it the configured value itself or an entry of the array that follows
    any number of strings; [traverseAppRoutes] then throws it too, without
    consulting the parser and without logging. *)
Theorem X3_rejected_deferred_value_is_thrown
    (join : list N -> list N -> list N) (existFolder : list N -> bool) (sge : bool)
    (parseAngularRoutes : list N -> list (list N) -> Completion (list (list N)))
    (excludedFiles : list (list N)) (appRootFolder : list N)
    (ref p : nat) (e : JsVal) (l : list (list N)) (rest : list JsVal) :
  addExtraRoutes (JPromise p false e) = ([], Throws e)
  /\ addExtraRoutes (JArray ref (List.map JStr l ++ JPromise p false e :: rest))
     = ([], Throws e)
  /\ traverseAppRoutes join existFolder sge parseAngularRoutes excludedFiles
       (JPromise p false e) appRootFolder = ([], Throws e)
  /\ traverseAppRoutes join existFolder sge parseAngularRoutes excludedFiles
       (JArray ref (List.map JStr l ++ JPromise p false e :: rest)) appRootFolder
     = ([], Throws e).
Proof.
  assert (addExtraRoutes (JArray ref (List.map JStr l ++ JPromise p false e :: rest))
          = ([], Throws e)) as Harray.
  { unfold addExtraRoutes, isPromise. cbn [truthy negb andb].
    rewrite dedupe_fold, fold_left_app, keep_fold_strings. cbn [fold_left].
    unfold keep at 2. rewrite includes_strings_other by discriminate.
    destruct (keep_fold_prefix rest (List.map JStr (firstOccurrences l) ++ [JPromise p false e]))
      as [more ->].
    rewrite <- !app_assoc, collect_strings_then. reflexivity. }
  split; [reflexivity|]. split; [exact Harray|]. split; [reflexivity|].
  unfold traverseAppRoutes. now rewrite Harray.
Qed.

(** X4: for a plain array of strings [addExtraRoutes] logs nothing and
    returns each string once, where it first occurs: the result has no
    repetition and the same elements as the array. *)
Theorem X4_string_array_without_repetitions (ref : nat) (l : list (list N)) :
  addExtraRoutes (JArray ref (List.map JStr l)) = ([], Returns (firstOccurrences l))
  /\ NoDup (firstOccurrences l)
  /\ (forall x, x ∈ firstOccurrences l <-> x ∈ l)
  /\ (NoDup l -> firstOccurrences l = l).
Proof.
  split; [apply addExtraRoutes_string_array|].
  destruct (firstOccurrences_spec l) as [Hnd Hin].
  split; [exact Hnd|]. split; [exact Hin|].
  intros Hl. unfold firstOccurrences.
  enough (forall acc, NoDup (acc ++ l) ->
            fold_left (fun acc x => if bool_decide (x ∈ acc) then acc else acc ++ [x]) l acc
            = acc ++ l) as Hgen by exact (Hgen [] Hl).
  clear. induction l as [|x l IH]; intros acc Hnd; simpl.
  - now rewrite app_nil_r.
  - assert (x ∉ acc) as Hx.
    { apply NoDup_app in Hnd as (_ & Hdisj & _). intros Hin.
      apply (Hdisj x Hin). apply elem_of_cons. now left. }
    rewrite bool_decide_eq_false_2 by exact Hx.
    rewrite IH; [now rewrite <- app_assoc|].
    now rewrite <- app_assoc.
Qed.

Lemma X4_string_array_without_repetitions_witness :
  addExtraRoutes (JArray 3 (List.map JStr [lit "/a"; lit "/b"]))
  = ([], Returns (firstOccurrences [lit "/a"; lit "/b"]))
  /\ firstOccurrences [lit "/a"; lit "/b"] = [lit "/a"; lit "/b"].
Proof.
  destruct (X4_string_array_without_repetitions 3 [lit "/a"; lit "/b"])
    as (Hreturns & _ & _ & Hsame).
  split; [exact Hreturns|]. apply Hsame.
  apply NoDup_cons. split.
  - intros Hin. apply list_elem_of_singleton in Hin. discriminate.
  - apply NoDup_singleton.
Defined.

(** X5: repetitions are dropped among the entries of the array only: the
    strings a deferred entry resolves to are appended as they come, whether
    they repeat each other or strings before them. *)
Theorem X5_deferred_entries_are_not_deduplicated
    (ref p q : nat) (l xs : list (list N)) :
  addExtraRoutes
    (JArray ref (List.map JStr l ++ [JPromise p true (JArray q (List.map JStr xs))]))
  = ([], Returns (firstOccurrences l ++ xs)).
Proof.
  unfold addExtraRoutes, isPromise. cbn [truthy negb andb].
  rewrite dedupe_fold, fold_left_app, keep_fold_strings. cbn [fold_left].
  unfold keep. rewrite includes_strings_other by discriminate.
  rewrite collect_strings_then. cbn [collect app]. unfold isPromise.
  cbn [truthy andb await]. now rewrite pushStrings_strings.
Qed.

Lemma isRouteSource_includes (acc : list JsVal) (r : JsVal) :
  isRouteSource r = true ->
  includes (List.filter isRouteSource acc) r = includes acc r.
Proof.
  intros Hr. unfold includes. induction acc as [|a acc IH]; simpl; [reflexivity|].
  destruct (isRouteSource a) eqn:Ha; simpl; rewrite IH; [reflexivity|].
  destruct a, r; try discriminate; reflexivity.
Qed.

Lemma keep_fold_filter (elems acc : list JsVal) :
  List.filter isRouteSource (fold_left keep elems acc)
  = fold_left keep (List.filter isRouteSource elems) (List.filter isRouteSource acc).
Proof.
  revert acc; induction elems as [|r elems IH]; intros acc; simpl; [reflexivity|].
  rewrite IH. destruct (isRouteSource r) eqn:Hr; simpl.
  - f_equal. unfold keep. rewrite isRouteSource_includes by exact Hr.
    destruct (includes acc r); [reflexivity|].
    rewrite List.filter_app. simpl. now rewrite Hr.
  - f_equal. unfold keep. destruct (includes acc r); [reflexivity|].
    rewrite List.filter_app. simpl. rewrite Hr. now rewrite app_nil_r.
Qed.

Lemma collect_filter (workList : list JsVal) (result : list (list N)) :
  collect (List.filter isRouteSource workList) result = collect workList result.
Proof.
  revert result; induction workList as [|r workList IH]; intros result; [reflexivity|].
  destruct r; simpl; unfold isPromise; simpl; rewrite ?andb_false_r; try apply IH.
  destruct fulfilled; [apply IH|reflexivity].
Qed.

(** X6: entries of the array that are neither strings nor thenables
    (numbers, null, nested arrays, plain objects) have no effect: the array
    without them gives the same result and the same log. *)
Theorem X6_other_entries_are_ignored (ref ref' : nat) (elems : list JsVal) :
  addExtraRoutes (JArray ref elems)
  = addExtraRoutes (JArray ref' (List.filter isRouteSource elems)).
Proof.
  unfold addExtraRoutes, isPromise. cbn [truthy negb andb].
  rewrite !dedupe_fold. f_equal.
  rewrite <- (collect_filter (fold_left keep elems [])).
  now rewrite keep_fold_filter.
Qed.

End RoutesExtra.

(** * Further properties of the transfer-state service *)

Module TransferStateExtra.
Import Js TransferState Reference Notions JsProps TransferStateProps.

(** ** The base route of a URL *)

Lemma slash_lit : lit "/" = [47%N].
Proof. reflexivity. Qed.

(** Splitting at a single code unit: up to its first occurrence... *)
Lemma split_go_single_piece (c : N) (seg cur rest : list N) :
  c ∉ seg ->
  split_go [c] 0 cur (seg ++ c :: rest) = (rev cur ++ seg) :: split_go [c] 0 [] rest.
Proof.
  revert cur; induction seg as [|x seg IH]; intros cur Hc.
  - cbn [app split_go startsWith length Nat.sub]. rewrite N.eqb_refl. cbn [andb].
    now rewrite app_nil_r.
  - apply not_elem_of_cons in Hc as [Hx Hseg].
    cbn [app split_go startsWith].
    rewrite (proj2 (N.eqb_neq c x) Hx). cbn [andb].
    rewrite (IH (x :: cur) Hseg). cbn [rev]. now rewrite <- app_assoc.
Qed.

Lemma not_elem_of_rev (c : N) (cur : list N) : c ∉ cur -> c ∉ rev cur.
Proof. rewrite !list_elem_of_In. intros Hc Hin. apply Hc. now apply in_rev. Qed.

(** ... and no piece contains it. *)
Lemma split_go_single_pieces (c : N) (s cur : list N) :
  c ∉ cur -> Forall (fun piece => c ∉ piece) (split_go [c] 0 cur s).
Proof.
  revert cur; induction s as [|x s IH]; intros cur Hcur.
  - cbn [split_go]. constructor; [|constructor]. now apply not_elem_of_rev.
  - cbn [split_go startsWith length Nat.sub].
    destruct (N.eqb_spec c x) as [->|Hne]; cbn [andb].
    + constructor; [now apply not_elem_of_rev|]. apply IH. apply not_elem_of_nil.
    + apply IH. apply not_elem_of_cons. split; [exact Hne|exact Hcur].
Qed.

Lemma base_elem (url b : list N) :
  base url = Some b -> In b (split (lit "/") url) /\ trim b <> lit "".
Proof.
  unfold base. intros Hhead.
  assert (In b (List.filter (fun part => negb (bool_decide (trim part = lit "")))
                  (split (lit "/") url))) as Hin.
  { destruct (List.filter _ _) as [|y ys]; [discriminate|].
    injection Hhead as ->. now left. }
  apply filter_In in Hin as [Hin Hb]. split; [exact Hin|].
  apply negb_true_iff, bool_decide_eq_false in Hb. exact Hb.
Qed.

Lemma base_no_slash (url b : list N) : base url = Some b -> 47%N ∉ b.
Proof.
  intros Hbase. apply base_elem in Hbase as [Hin _].
  pose proof (split_go_single_pieces 47%N url [] (not_elem_of_nil _)) as Hall.
  rewrite Forall_forall in Hall. apply Hall. apply list_elem_of_In.
  unfold split in Hin. now rewrite slash_lit in Hin.
Qed.

Lemma base_idle (url : list N) : Some (lit "//") <> base url.
Proof.
  intros Heq. symmetry in Heq. apply base_no_slash in Heq.
  apply Heq. vm_compute. apply elem_of_cons. now left.
Qed.

(** X7: the base route of a URL is never blank and contains no slash; so it
    is never "//", the value [currentBaseUrl] holds while nothing is
    tracked. *)
Theorem X7_base_is_never_the_idle_marker (url b : list N) :
  base url = Some b ->
  (47%N ∉ b) /\ trim b <> lit "" /\ b <> lit "//".
Proof.
  intros Hbase. split; [now apply (base_no_slash url)|].
  split; [now apply (base_elem url)|].
  intros ->. now apply (base_idle url).
Qed.

Lemma X7_base_is_never_the_idle_marker_witness :
  (47%N ∉ lit "blog") /\ trim (lit "blog") <> lit "" /\ lit "blog" <> lit "//".
Proof.
  apply (X7_base_is_never_the_idle_marker (lit "/blog/first-post") (lit "blog")).
  vm_compute. reflexivity.
Defined.

(** X8: the base route is the first path segment: a leading slash is
    ignored, and the text up to the next slash is returned when it is not
    blank. *)
Theorem X8_base_is_the_first_segment (seg rest url : list N) :
  47%N ∉ seg -> trim seg <> lit "" ->
  base (lit "/" ++ url) = base url
  /\ base seg = Some seg
  /\ base (seg ++ lit "/" ++ rest) = Some seg
  /\ base (lit "/" ++ seg ++ lit "/" ++ rest) = Some seg.
Proof.
  intros Hseg Hblank.
  assert (forall u, base (lit "/" ++ u) = base u) as Hlead.
  { intros u. unfold base, split. rewrite slash_lit.
    change ([47%N] ++ u) with ([] ++ 47%N :: u).
    rewrite (split_go_single_piece 47%N [] [] u (not_elem_of_nil _)). reflexivity. }
  assert (forall r, base (seg ++ lit "/" ++ r) = Some seg) as Hfirst.
  { intros r. unfold base, split. rewrite slash_lit.
    change (seg ++ [47%N] ++ r) with (seg ++ 47%N :: r).
    rewrite (split_go_single_piece 47%N seg [] r Hseg). cbn [rev app List.filter].
    now rewrite bool_decide_eq_false_2 by exact Hblank. }
  split; [apply Hlead|]. split; [|split; [apply Hfirst|]].
  - unfold base, split. rewrite slash_lit.
    pose proof (split_go_indexOf_None [47%N] seg [] 0) as Hnone.
    rewrite Hnone.
    + cbn [rev app List.filter]. now rewrite bool_decide_eq_false_2 by exact Hblank.
    + clear -Hseg. generalize 0. induction seg as [|x seg IH]; intros k; [reflexivity|].
      apply not_elem_of_cons in Hseg as [Hx Hseg]. cbn [indexOf_from startsWith].
      rewrite (proj2 (N.eqb_neq 47 x) Hx). cbn [andb]. now apply IH.
  - rewrite Hlead. apply Hfirst.
Qed.

Lemma X8_base_is_the_first_segment_witness :
  base (lit "/" ++ lit "docs") = base (lit "docs")
  /\ base (lit "blog") = Some (lit "blog")
  /\ base (lit "blog" ++ lit "/" ++ lit "first-post") = Some (lit "blog")
  /\ base (lit "/" ++ lit "blog" ++ lit "/" ++ lit "first-post") = Some (lit "blog").
Proof.
  apply (X8_base_is_the_first_segment (lit "blog") (lit "first-post") (lit "docs")).
  - vm_compute. intros Hin. repeat (apply elem_of_cons in Hin as [Hin|Hin]; [discriminate|]).
    now apply elem_of_nil in Hin.
  - discriminate.
Defined.

(** ** Starting to track *)

Section Tracking.
Variable JSON_parse : list N -> option (list (list N * JsVal)).
Variable JSON_stringify : list (list N * JsVal) -> list N.
Variable mergePaths : list N -> list N -> list N.

(** A call that finds the driver idle and a URL in the buffer subscribes
    and reads that URL. *)
Lemma fetchTransferState_idle url s :
  currentBaseUrl s = Some (lit "//") -> replay s = Some url ->
  fetchTransferState mergePaths s
  = with_tracking
      (tracking s ++ [{| outerOpen := true; inner := Some (read s url) |}])
      (with_effects (effects s ++ [request mergePaths (read s url)])
         (with_currentBaseUrl (base url) (with_connected true s))).
Proof.
  intros Hidle Hreplay. unfold fetchTransferState.
  cbn [replay with_connected]. rewrite Hreplay. unfold fetchTransferState_resume.
  cbn [currentBaseUrl with_connected]. rewrite Hidle.
  rewrite bool_decide_eq_false_2 by apply base_idle.
  cbn [replay with_currentBaseUrl with_connected]. rewrite Hreplay.
  unfold pipeline_next. cbn [outerOpen currentBaseUrl with_currentBaseUrl].
  rewrite bool_decide_eq_true_2 by reflexivity. reflexivity.
Qed.

Lemma nextUrl_step_quiet s e :
  let s' := fst (nextUrl_step s e) in
  replay s' = replay s /\ effects s' = effects s /\ tracking s' = tracking s.
Proof. unfold nextUrl_step. branches; now repeat split. Qed.

Lemma pipeline_next_replay url s p :
  replay (fst (pipeline_next mergePaths url s p)) = replay s.
Proof. unfold pipeline_next. branches; reflexivity. Qed.

Lemma pipelines_next_replay url ps s :
  replay (fst (pipelines_next mergePaths url s ps)) = replay s.
Proof.
  revert s; induction ps as [|p ps IH]; intros s; simpl; [reflexivity|].
  pose proof (pipeline_next_replay url s p) as Hp.
  destruct (pipeline_next mergePaths url s p) as [s1 p1]. simpl in Hp.
  specialize (IH s1). destruct (pipelines_next mergePaths url s1 ps) as [s2 ps2].
  simpl in *. congruence.
Qed.

Lemma fetchTransferState_resume_replay url s :
  replay (fetchTransferState_resume mergePaths url s) = replay s.
Proof.
  unfold fetchTransferState_resume.
  destruct (bool_decide _); [reflexivity|].
  cbn [replay with_currentBaseUrl]. destruct (replay s) as [u|] eqn:Hr; [|exact Hr].
  set (s0 := with_currentBaseUrl _ s).
  pose proof (pipeline_next_replay u s0 {| outerOpen := true; inner := None |}) as Hp.
  destruct (pipeline_next mergePaths u s0 _) as [s1 p1]. simpl in *.
  rewrite Hp. exact Hr.
Qed.

Lemma iter_resume_replay url n s :
  replay (Nat.iter n (fetchTransferState_resume mergePaths url) s) = replay s.
Proof.
  induction n as [|n IH]; simpl; [reflexivity|].
  now rewrite fetchTransferState_resume_replay.
Qed.

(** Once [nextUrl] has emitted, its buffer holds the last URL. *)
Lemma emit_replay url s : replay (emit mergePaths url s) = Some url.
Proof.
  unfold emit. cbn [tracking with_replay].
  pose proof (pipelines_next_replay url (tracking s) (with_replay (Some url) s)) as Hp.
  destruct (pipelines_next mergePaths url _ _) as [s1 ps]. simpl in Hp.
  rewrite iter_resume_replay. simpl. exact Hp.
Qed.

(** While the buffer is empty nothing was fetched, nothing was warned about
    and nothing is subscribed: every event keeps it so. *)
Lemma step_quiet s ev :
  (replay s = None -> effects s = [] /\ tracking s = []) ->
  let s' := step JSON_parse JSON_stringify mergePaths s ev in
  replay s' = None -> effects s' = [] /\ tracking s' = [].
Proof.
  intros Hquiet s' Hnone. subst s'. destruct ev as [w|e|name|w name val|i response]; simpl in *.
  - unfold startMonitoring, setupStartNavMonitoring, setupEnvForTransferState, saveState in *.
    revert Hnone. branches; simpl; exact Hquiet.
  - unfold router_event in *. destruct (connected s); [|now apply Hquiet].
    destruct (nextUrl_step_quiet s e) as (Hr & He & Ht).
    destruct (nextUrl_step s e) as [s1 [url|]]; simpl in *.
    + now rewrite emit_replay in Hnone.
    + rewrite He, Ht. apply Hquiet. congruence.
  - unfold fetchTransferState in *. cbn [replay with_connected] in *.
    destruct (replay s) as [url|] eqn:Hr.
    + rewrite fetchTransferState_resume_replay in Hnone. simpl in Hnone. congruence.
    + simpl. now apply Hquiet.
  - unfold setState, saveState in *. revert Hnone. branches; simpl; exact Hquiet.
  - unfold settle in *. revert Hnone.
    destruct (tracking s !! i) as [[open [r|]]|] eqn:Hp; try (now apply Hquiet).
    intros Hnone.
    assert (replay s = None) as Hs by (revert Hnone; branches; simpl; tauto).
    destruct (Hquiet Hs) as [_ Ht]. rewrite Ht in Hp. discriminate.
Qed.
End Tracking.

(** X9: a call of [fetchTransferState] that finds the driver idle
    ([currentBaseUrl] is "//") and a resolved URL at hand always starts
    tracking: it takes the base route of the URL, subscribes once and starts
    one read, of that URL; the snapshot is left alone. *)
Theorem X9_idle_driver_starts_tracking
    (mergePaths : list N -> list N -> list N) (s : Service) (url : list N) :
  currentBaseUrl s = Some (lit "//") -> replay s = Some url ->
  let s' := fetchTransferState mergePaths s in
  currentBaseUrl s' = base url
  /\ effects s' = effects s ++ [request mergePaths (read s url)]
  /\ tracking s' = tracking s ++ [{| outerOpen := true; inner := Some (read s url) |}]
  /\ stateBS s' = stateBS s.
Proof.
  intros Hidle Hreplay. cbv zeta.
  rewrite (fetchTransferState_idle mergePaths url s Hidle Hreplay). now repeat split.
Qed.

Lemma X9_idle_driver_starts_tracking_witness :
  let s := run Samples.parse Samples.stringify Samples.mergePaths new_service
             ([StartMonitoring (Samples.generated (lit "/") false)]
              ++ Samples.navigate (lit "/") ++ Samples.navigate (lit "/blog/a")) in
  let s' := fetchTransferState Samples.mergePaths s in
  currentBaseUrl s' = base (lit "/blog/a")
  /\ effects s' = effects s ++ [Fetch (lit "/blog/a/data.json") AsJson]
  /\ tracking s' = tracking s ++ [{| outerOpen := true;
                                     inner := Some (ReadFromJson (lit "/blog/a")) |}]
  /\ stateBS s' = stateBS s.
Proof.
  intros s.
  apply (X9_idle_driver_starts_tracking Samples.mergePaths s (lit "/blog/a")).
  - vm_compute. reflexivity.
  - vm_compute. reflexivity.
Defined.

(** X10: whatever is called and whatever the router reports, as long as
    [nextUrl] has not emitted a URL the service has made no request, has
    logged no warning and holds no subscription. *)
Theorem X10_nothing_is_fetched_before_a_url_is_resolved
    (JSON_parse : list N -> option (list (list N * JsVal)))
    (JSON_stringify : list (list N * JsVal) -> list N)
    (mergePaths : list N -> list N -> list N) (evs : list Event) :
  let s := run JSON_parse JSON_stringify mergePaths new_service evs in
  replay s = None -> effects s = [] /\ tracking s = [].
Proof.
  cbv zeta. unfold run.
  enough (forall s0, (replay s0 = None -> effects s0 = [] /\ tracking s0 = []) ->
            replay (fold_left (step JSON_parse JSON_stringify mergePaths) evs s0) = None ->
            effects (fold_left (step JSON_parse JSON_stringify mergePaths) evs s0) = []
            /\ tracking (fold_left (step JSON_parse JSON_stringify mergePaths) evs s0) = [])
    as Hgen by (apply Hgen; now split).
  induction evs as [|ev evs IH]; intros s0 Hquiet; simpl; [exact Hquiet|].
  apply IH. now apply step_quiet.
Qed.

Lemma X10_nothing_is_fetched_before_a_url_is_resolved_witness :
  let s := run Samples.parse Samples.stringify Samples.mergePaths new_service
             ([StartMonitoring (Samples.generated (lit "/blog") true);
               GetState (lit "title"); GetState (lit "author")]
              ++ Samples.navigate (lit "/blog")
              ++ [SetState (Samples.generated (lit "/blog") true) (lit "title") (JNum 1);
                  Router (NavigationStart (lit "/docs"))]) in
  effects s = [] /\ tracking s = [].
Proof.
  apply (X10_nothing_is_fetched_before_a_url_is_resolved Samples.parse Samples.stringify
           Samples.mergePaths
           ([StartMonitoring (Samples.generated (lit "/blog") true);
             GetState (lit "title"); GetState (lit "author")]
            ++ Samples.navigate (lit "/blog")
            ++ [SetState (Samples.generated (lit "/blog") true) (lit "title") (JNum 1);
                Router (NavigationStart (lit "/docs"))])).
  vm_compute. reflexivity.
Defined.

(** ** The first navigation of a generated page *)

Lemma endsWith_slash (p : list N) : endsWith (lit "/") (p ++ lit "/") = true.
Proof.
  unfold endsWith. rewrite slash_lit, rev_app_distr. cbn [rev app startsWith].
  now rewrite N.eqb_refl.
Qed.

(** What [setupEnvForTransferState] makes of [location.pathname]. *)
Lemma startMonitoring_generated JSON_stringify w s :
  isScullyRunning w = false -> isScullyGenerated w = true ->
  let initial := match pathname w with [] => lit "__no_NO_no__" | p => p end in
  let initial :=
    if negb (bool_decide (initial = lit "/")) && endsWith (lit "/") initial
    then take (length initial - 1) initial else initial in
  startMonitoring JSON_stringify w s
  = with_connected true
      (with_stateBS (Some (default [] (windowState w)))
         (with_initialUrl (Some initial)
            (if injectedInlineStateOnly w then with_inlineOnly true s else s))).
Proof.
  intros Hrun Hgen. unfold startMonitoring, setupStartNavMonitoring, setupEnvForTransferState.
  now rewrite Hrun, Hgen.
Qed.

(** One trailing slash is cut off, except from "/" itself. *)
Lemma initialUrl_of_pathname (path p : list N) :
  p <> [] ->
  path = p ++ lit "/" \/ (path = p /\ (p = lit "/" \/ endsWith (lit "/") p = false)) ->
  (if negb (bool_decide (path = lit "/")) && endsWith (lit "/") path
   then take (length path - 1) path else path) = p.
Proof.
  intros Hp [->|[-> [->|Hends]]].
  - assert (p ++ lit "/" <> lit "/") as Hne.
    { destruct p as [|x [|y p]]; [congruence|discriminate|discriminate]. }
    rewrite bool_decide_eq_false_2 by exact Hne.
    rewrite endsWith_slash. cbn [negb andb].
    rewrite length_app. cbn [length lit List.map list_ascii_of_string].
    replace (length p + 1 - 1) with (length p) by lia. apply take_app_length.
  - reflexivity.
  - rewrite Hends. now rewrite andb_false_r.
Qed.

(** X11: on a page that Scully generated, opened at [p] or at [p] followed
    by one slash, the first navigation to [p] is silent: the snapshot that
    the page came with stays, nothing is emitted, nothing is fetched; and
    the latch is used up. *)
Theorem X11_initial_navigation_is_silent
    (JSON_stringify : list (list N * JsVal) -> list N)
    (mergePaths : list N -> list N -> list N)
    (w : Window) (p urlAfterRedirects : list N) :
  isScullyRunning w = false -> isScullyGenerated w = true -> p <> [] ->
  pathname w = p ++ lit "/"
  \/ (pathname w = p /\ (p = lit "/" \/ endsWith (lit "/") p = false)) ->
  let s0 := startMonitoring JSON_stringify w new_service in
  let s := router_event mergePaths (NavigationEnd p urlAfterRedirects)
             (router_event mergePaths (NavigationStart p) s0) in
  initialUrl s0 = Some p
  /\ stateBS s = Some (default [] (windowState w))
  /\ effects s = [] /\ replay s = None
  /\ initialUrl s = Some initialStateDone.
Proof.
  intros Hrun Hgen Hp Hpath s0 s. subst s s0.
  rewrite (startMonitoring_generated JSON_stringify w new_service Hrun Hgen).
  cbv zeta.
  set (initial := match pathname w with [] => _ | _ :: _ => _ end).
  assert (initial = pathname w) as ->.
  { subst initial. destruct (pathname w) eqn:Hw; [|reflexivity].
    destruct Hpath as [Hw'|[Hw' _]]; [destruct p; discriminate|congruence]. }
  rewrite (initialUrl_of_pathname (pathname w) p Hp Hpath).
  unfold router_event. cbn [connected with_connected nextUrl_step].
  cbn [initialUrl with_connected with_stateBS with_initialUrl].
  rewrite bool_decide_eq_true_2 by reflexivity.
  cbn [connected with_initialUrl with_connected nextUrl_step navigating with_stateBS].
  destruct (injectedInlineStateOnly w); now repeat split.
Qed.

Lemma X11_initial_navigation_is_silent_witness :
  let w := {| isScullyRunning := false; isScullyGenerated := true;
              injectedInlineStateOnly := false; exposedTransferState := None;
              pathname := lit "/blog/";
              windowState := Some [(lit "title", JStr (lit "A"))] |} in
  let s0 := startMonitoring Samples.stringify w new_service in
  let s := router_event Samples.mergePaths (NavigationEnd (lit "/blog") (lit "/blog"))
             (router_event Samples.mergePaths (NavigationStart (lit "/blog")) s0) in
  initialUrl s0 = Some (lit "/blog")
  /\ stateBS s = Some (default [] (windowState w))
  /\ effects s = [] /\ replay s = None
  /\ initialUrl s = Some initialStateDone.
Proof.
  intros w.
  apply (X11_initial_navigation_is_silent Samples.stringify Samples.mergePaths w
           (lit "/blog") (lit "/blog")).
  - reflexivity.
  - reflexivity.
  - discriminate.
  - left. reflexivity.
Defined.

(** X12: a navigation that is superseded before it ends is never emitted:
    after the starts of [a] and then [b], the end of [a] is not answered and
    the end of [b] emits the resolved URL of [b]; the snapshot is
    [undefined] from the first start on. *)
Theorem X12_superseded_navigation_is_not_emitted
    (s : Service) (a b afterA afterB : list N) :
  initialUrl s <> Some a -> initialUrl s <> Some b -> a <> b ->
  let r := nextUrl_run s [NavigationStart a; NavigationStart b;
                          NavigationEnd a afterA; NavigationEnd b afterB] in
  snd r = [resolved b afterB]
  /\ stateBS (fst r) = None
  /\ snd (nextUrl_run s [NavigationStart a; NavigationStart b; NavigationEnd a afterA]) = [].
Proof.
  intros Ha Hb Hab. cbv zeta. cbn [nextUrl_run nextUrl_step].
  rewrite (bool_decide_eq_false_2 _ Ha).
  cbn [nextUrl_step initialUrl with_navigating with_stateBS].
  rewrite (bool_decide_eq_false_2 _ Hb).
  cbn [navigating with_navigating].
  rewrite (bool_decide_eq_false_2 (a = b) Hab).
  cbn [navigating with_navigating].
  rewrite (bool_decide_eq_true_2 (b = b) eq_refl).
  now repeat split.
Qed.

Lemma X12_superseded_navigation_is_not_emitted_witness :
  let s := startMonitoring Samples.stringify (Samples.generated (lit "/") false) new_service in
  let r := nextUrl_run s [NavigationStart (lit "/a"); NavigationStart (lit "/b");
                          NavigationEnd (lit "/a") (lit "/a");
                          NavigationEnd (lit "/b") (lit "/b/1")] in
  snd r = [lit "/b/1"]
  /\ stateBS (fst r) = None
  /\ snd (nextUrl_run s [NavigationStart (lit "/a"); NavigationStart (lit "/b");
                         NavigationEnd (lit "/a") (lit "/a")]) = [].
Proof.
  intros s.
  apply (X12_superseded_navigation_is_not_emitted s (lit "/a") (lit "/b")
           (lit "/a") (lit "/b/1")).
  - discriminate.
  - discriminate.
  - discriminate.
Defined.

(** ** Writing the state and reading it back *)




(** X14: what [setState] writes while Scully renders is what
    [readFromIndex] later reads: the script element holds the text
    [window['ScullyIO-transfer-state']=], the start marker, the serialized
    snapshot and the end marker; and from a page that contains this script,
    where the markers occur nowhere else before it or in the snapshot, the
    callback of [readFromIndex] gets the snapshot back, given that
    [JSON.parse] inverts [JSON.stringify] on it. *)
Theorem X14_saved_state_is_read_back
    (JSON_parse : list N -> option (list (list N * JsVal)))
    (JSON_stringify : list (list N * JsVal) -> list N)
    (w : Window) (name : list N) (val : JsVal) (s : Service) (pre post : list N) :
  let newState := setProp name val (default [] (stateBS s)) in
  let json := JSON_stringify newState in
  let html := pre ++ scriptText json ++ post in
  isScullyRunning w = true -> is_Some (script s) ->
  indexOf SCULLY_STATE_START html
  = Some (length (pre ++ lit "window['" ++ SCULLY_SCRIPT_ID ++ lit "']=")) ->
  indexOf SCULLY_STATE_START (json ++ SCULLY_STATE_END ++ post) = None ->
  indexOf SCULLY_STATE_END (json ++ SCULLY_STATE_END ++ post) = Some (length json) ->
  JSON_parse json = Some newState ->
  script (fst (setState JSON_stringify w name val s)) = Some (scriptText json)
  /\ newStateStr html = Some json
  /\ readFromIndex_then JSON_parse html = Some newState.
Proof.
  intros newState json html Hrun [text Hscript] Hfirst Honce Hend Hparse.
  assert (html = (pre ++ lit "window['" ++ SCULLY_SCRIPT_ID ++ lit "']=")
                 ++ SCULLY_STATE_START ++ json ++ SCULLY_STATE_END ++ post) as Hhtml.
  { subst html. unfold scriptText. now rewrite <- !app_assoc. }
  assert (newStateStr html = Some json) as Hstr.
  { rewrite Hhtml. apply newStateStr_between; [now rewrite <- Hhtml|exact Honce|exact Hend]. }
  split.
  - unfold setState, saveState. rewrite Hrun. cbn [script with_stateBS].
    rewrite Hscript. reflexivity.
  - split; [exact Hstr|]. unfold readFromIndex_then. now rewrite Hstr.
Qed.

Lemma X14_saved_state_is_read_back_witness :
  let s := startMonitoring Samples.stringify Samples.rendering new_service in
  let newState : list (list N * JsVal) := [(lit "title", JStr (lit "A"))] in
  let html := lit "<html><head><script>" ++ scriptText (lit "{A}")
              ++ lit "</script></head></html>" in
  script (fst (setState Samples.stringify Samples.rendering (lit "title") (JStr (lit "A")) s))
  = Some (scriptText (lit "{A}"))
  /\ newStateStr html = Some (lit "{A}")
  /\ readFromIndex_then Samples.parse html = Some newState.
Proof.
  intros s newState html.
  apply (X14_saved_state_is_read_back Samples.parse Samples.stringify Samples.rendering
           (lit "title") (JStr (lit "A")) s (lit "<html><head><script>")
           (lit "</script></head></html>")).
  - reflexivity.
  - vm_compute. eauto.
  - vm_compute. reflexivity.
  - vm_compute. reflexivity.
  - vm_compute. reflexivity.
  - vm_compute. reflexivity.
Defined.

(** X15: a page that has the start marker but no end marker does not make
    [readFromIndex] throw by itself: the whole text behind the start marker
    is handed to [JSON.parse], which decides. *)
Theorem X15_missing_end_marker_is_left_to_the_parser
    (JSON_parse : list N -> option (list (list N * JsVal))) (pre rest : list N) :
  let html := pre ++ SCULLY_STATE_START ++ rest in
  indexOf SCULLY_STATE_START html = Some (length pre) ->
  indexOf SCULLY_STATE_START rest = None ->
  indexOf SCULLY_STATE_END rest = None ->
  newStateStr html = Some rest
  /\ readFromIndex_then JSON_parse html = JSON_parse rest.
Proof.
  intros html Hfirst Honce Hend.
  assert (newStateStr html = Some rest) as Hstr.
  { unfold newStateStr. subst html.
    rewrite (split_indexOf_Some _ _ _ SCULLY_STATE_START_nonempty Hfirst).
    rewrite <- drop_drop, !drop_app_length.
    rewrite (split_indexOf_None _ _ Honce), (split_indexOf_None _ _ Hend). reflexivity. }
  split; [exact Hstr|]. unfold readFromIndex_then. now rewrite Hstr.
Qed.

Lemma X15_missing_end_marker_is_left_to_the_parser_witness :
  let html := lit "<script>" ++ SCULLY_STATE_START ++ lit "{A}" in
  newStateStr html = Some (lit "{A}")
  /\ readFromIndex_then Samples.parse html = Samples.parse (lit "{A}").
Proof.
  apply (X15_missing_end_marker_is_left_to_the_parser Samples.parse
           (lit "<script>") (lit "{A}")).
  - vm_compute. reflexivity.
  - vm_compute. reflexivity.
  - vm_compute. reflexivity.
Defined.

(** ** Leaving a base route, failing, and starting anew *)

Section Leaving.
Variable JSON_parse : list N -> option (list (list N * JsVal)).
Variable mergePaths : list N -> list N -> list N.

(** A URL of another base reaches the one subscription, which has no read
    under way: it completes at once. *)
Lemma emit_other_base_idle url s p :
  tracking s = [p] -> outerOpen p = true -> inner p = None -> waiting s = 0 ->
  currentBaseUrl s <> base url ->
  emit mergePaths url s
  = with_waiting 0 (with_tracking [] (complete (with_replay (Some url) s))).
Proof.
  intros Htrack Hopen Hinner Hwait Hbase. unfold emit.
  cbn [tracking with_replay]. rewrite Htrack.
  cbn [pipelines_next]. unfold pipeline_next. rewrite Hopen, Hinner.
  cbn [currentBaseUrl with_replay].
  rewrite bool_decide_eq_false_2 by congruence.
  cbn [waiting complete with_currentBaseUrl with_replay]. now rewrite Hwait.
Qed.

(** The same with a read under way: the subscription stays, closed to
    further URLs, until that read settles. *)
Lemma emit_other_base_reading url s p r :
  tracking s = [p] -> outerOpen p = true -> inner p = Some r -> waiting s = 0 ->
  currentBaseUrl s <> base url ->
  emit mergePaths url s
  = with_waiting 0
      (with_tracking [{| outerOpen := false; inner := Some r |}]
         (with_replay (Some url) s)).
Proof.
  intros Htrack Hopen Hinner Hwait Hbase. unfold emit.
  cbn [tracking with_replay]. rewrite Htrack.
  cbn [pipelines_next]. unfold pipeline_next. rewrite Hopen, Hinner.
  cbn [currentBaseUrl with_replay].
  rewrite bool_decide_eq_false_2 by congruence.
  cbn [waiting with_replay]. now rewrite Hwait.
Qed.
End Leaving.

(** X16: when a resolved URL of another base route reaches a subscription
    that has no read under way, the subscription ends without fetching and
    the driver is idle again; the next call of [fetchTransferState] then
    tracks the new base route and starts exactly one read, of the new URL. *)
Theorem X16_other_base_ends_the_subscription
    (mergePaths : list N -> list N -> list N) (s : Service) (p : Pipeline)
    (url : list N) :
  tracking s = [p] -> outerOpen p = true -> inner p = None -> waiting s = 0 ->
  currentBaseUrl s <> base url ->
  let s1 := emit mergePaths url s in
  let s2 := fetchTransferState mergePaths s1 in
  tracking s1 = [] /\ currentBaseUrl s1 = Some (lit "//") /\ effects s1 = effects s
  /\ currentBaseUrl s2 = base url
  /\ effects s2 = effects s ++ [request mergePaths (read s url)]
  /\ tracking s2 = [{| outerOpen := true; inner := Some (read s url) |}].
Proof.
  intros Htrack Hopen Hinner Hwait Hbase s1 s2. subst s2 s1.
  rewrite (emit_other_base_idle mergePaths url s p Htrack Hopen Hinner Hwait Hbase).
  rewrite (fetchTransferState_idle mergePaths url) by reflexivity.
  now repeat split.
Qed.

Lemma X16_other_base_ends_the_subscription_witness :
  let s := run Samples.parse Samples.stringify Samples.mergePaths new_service
             ([StartMonitoring (Samples.generated (lit "/") false); GetState (lit "title")]
              ++ Samples.navigate (lit "/") ++ Samples.navigate (lit "/blog/a")
              ++ [Settled 0 (Some (lit "{A}"))]) in
  let s1 := emit Samples.mergePaths (lit "/docs/intro") s in
  let s2 := fetchTransferState Samples.mergePaths s1 in
  tracking s1 = [] /\ currentBaseUrl s1 = Some (lit "//") /\ effects s1 = effects s
  /\ currentBaseUrl s2 = base (lit "/docs/intro")
  /\ effects s2 = effects s ++ [Fetch (lit "/docs/intro/data.json") AsJson]
  /\ tracking s2 = [{| outerOpen := true; inner := Some (ReadFromJson (lit "/docs/intro")) |}].
Proof.
  intros s.
  apply (X16_other_base_ends_the_subscription Samples.mergePaths s
           {| outerOpen := true; inner := None |} (lit "/docs/intro")).
  - vm_compute. reflexivity.
  - reflexivity.
  - reflexivity.
  - vm_compute. reflexivity.
  - vm_compute. discriminate.
Defined.

(** X17: a read that is still under way when a resolved URL of another base
    route arrives is not abandoned: the subscription stays until the read
    settles, the snapshot it delivers is published, and only then the
    driver is idle again. *)
Theorem X17_read_under_way_is_still_published
    (JSON_parse : list N -> option (list (list N * JsVal)))
    (mergePaths : list N -> list N -> list N) (s : Service) (p : Pipeline)
    (r : Request) (url : list N) (response : option (list N))
    (newState : list (list N * JsVal)) :
  tracking s = [p] -> outerOpen p = true -> inner p = Some r -> waiting s = 0 ->
  currentBaseUrl s <> base url ->
  readResult JSON_parse r response = Some newState ->
  let s1 := emit mergePaths url s in
  let s2 := settle JSON_parse 0 response s1 in
  tracking s1 = [{| outerOpen := false; inner := Some r |}]
  /\ currentBaseUrl s1 = currentBaseUrl s /\ effects s1 = effects s
  /\ stateBS s2 = Some newState
  /\ tracking s2 = [] /\ currentBaseUrl s2 = Some (lit "//")
  /\ effects s2 = effects s.
Proof.
  intros Htrack Hopen Hinner Hwait Hbase Hread s1 s2. subst s2 s1.
  rewrite (emit_other_base_reading mergePaths url s p r Htrack Hopen Hinner Hwait Hbase).
  unfold settle. cbn [tracking with_waiting with_tracking lookup list_lookup].
  rewrite Hread. now repeat split.
Qed.

Lemma X17_read_under_way_is_still_published_witness :
  let s := run Samples.parse Samples.stringify Samples.mergePaths new_service
             ([StartMonitoring (Samples.generated (lit "/") false); GetState (lit "title")]
              ++ Samples.navigate (lit "/") ++ Samples.navigate (lit "/blog/a")) in
  let s1 := emit Samples.mergePaths (lit "/docs/intro") s in
  let s2 := settle Samples.parse 0 (Some (lit "{A}")) s1 in
  tracking s1 = [{| outerOpen := false; inner := Some (ReadFromJson (lit "/blog/a")) |}]
  /\ currentBaseUrl s1 = currentBaseUrl s /\ effects s1 = effects s
  /\ stateBS s2 = Some [(lit "title", JStr (lit "A"))]
  /\ tracking s2 = [] /\ currentBaseUrl s2 = Some (lit "//")
  /\ effects s2 = effects s.
Proof.
  intros s.
  apply (X17_read_under_way_is_still_published Samples.parse Samples.mergePaths s
           {| outerOpen := true; inner := Some (ReadFromJson (lit "/blog/a")) |}
           (ReadFromJson (lit "/blog/a")) (lit "/docs/intro") (Some (lit "{A}"))
           [(lit "title", JStr (lit "A"))]).
  - vm_compute. reflexivity.
  - reflexivity.
  - reflexivity.
  - vm_compute. reflexivity.
  - vm_compute. discriminate.
  - vm_compute. reflexivity.
Defined.

(** X18: a failed read ends the subscription and leaves the driver idle, so
    the data is asked for again: the next call of [fetchTransferState]
    subscribes anew and reads the URL that was resolved last. *)
Theorem X18_failed_read_is_retried_by_the_next_call
    (JSON_parse : list N -> option (list (list N * JsVal)))
    (mergePaths : list N -> list N -> list N) (s : Service) (p : Pipeline)
    (r : Request) (url : list N) (response : option (list N)) :
  tracking s = [p] -> inner p = Some r -> replay s = Some url ->
  ReadFails JSON_parse r response ->
  let s1 := settle JSON_parse 0 response s in
  let s2 := fetchTransferState mergePaths s1 in
  tracking s1 = [] /\ currentBaseUrl s1 = Some (lit "//")
  /\ effects s2 = effects s ++ [ConsoleWarn; request mergePaths (read s url)]
  /\ tracking s2 = [{| outerOpen := true; inner := Some (read s url) |}]
  /\ currentBaseUrl s2 = base url
  /\ stateBS s2 = Some [].
Proof.
  intros Htrack Hinner Hreplay Hfail s1 s2.
  assert (s1 = complete (with_tracking []
                 (with_stateBS (Some []) (with_effects (effects s ++ [ConsoleWarn]) s))))
    as Hs1.
  { subst s1. unfold settle. rewrite Htrack. cbn [lookup list_lookup].
    destruct p as [open inflight]. simpl in Hinner. subst inflight.
    rewrite (readResult_fails _ _ _ Hfail).
    cbn [tracking with_stateBS with_effects]. rewrite Htrack. reflexivity. }
  subst s2. rewrite Hs1.
  rewrite (fetchTransferState_idle mergePaths url) by (reflexivity || exact Hreplay).
  repeat split. cbn [effects with_tracking with_effects with_currentBaseUrl with_connected
                       complete with_stateBS].
  now rewrite <- app_assoc.
Qed.

Lemma X18_failed_read_is_retried_by_the_next_call_witness :
  let s := run Samples.parse Samples.stringify Samples.mergePaths new_service
             ([StartMonitoring (Samples.generated (lit "/") false); GetState (lit "title")]
              ++ Samples.navigate (lit "/") ++ Samples.navigate (lit "/blog/a")) in
  let s1 := settle Samples.parse 0 None s in
  let s2 := fetchTransferState Samples.mergePaths s1 in
  tracking s1 = [] /\ currentBaseUrl s1 = Some (lit "//")
  /\ effects s2 = effects s ++ [ConsoleWarn; Fetch (lit "/blog/a/data.json") AsJson]
  /\ tracking s2 = [{| outerOpen := true; inner := Some (ReadFromJson (lit "/blog/a")) |}]
  /\ currentBaseUrl s2 = base (lit "/blog/a")
  /\ stateBS s2 = Some [].
Proof.
  intros s.
  apply (X18_failed_read_is_retried_by_the_next_call Samples.parse Samples.mergePaths s
           {| outerOpen := true; inner := Some (ReadFromJson (lit "/blog/a")) |}
           (ReadFromJson (lit "/blog/a")) (lit "/blog/a") None).
  - vm_compute. reflexivity.
  - reflexivity.
  - vm_compute. reflexivity.
  - apply fetch_rejected.
Defined.

(** ** What readers see *)



(** X20: while Scully renders a page, [startMonitoring] creates the script
    element; a snapshot exposed by the renderer is published and written
    into it at once; and as the router is only monitored on generated
    pages, router events leave the service alone until the first call of
    [getState]. *)
Theorem X20_rendering_starts_from_the_exposed_state
    (JSON_stringify : list (list N * JsVal) -> list N)
    (mergePaths : list N -> list N -> list N)
    (w : Window) (transferState : list (list N * JsVal)) (e : RouterEvent) :
  isScullyRunning w = true -> isScullyGenerated w = false ->
  exposedTransferState w = Some transferState ->
  let s := startMonitoring JSON_stringify w new_service in
  stateBS s = Some transferState
  /\ script s = Some (scriptText (JSON_stringify transferState))
  /\ initialUrl s = None
  /\ router_event mergePaths e s = s.
Proof.
  intros Hrun Hgen Hexposed s. subst s.
  unfold startMonitoring, setupStartNavMonitoring, setupEnvForTransferState, saveState.
  rewrite Hrun, Hgen, Hexposed. unfold router_event.
  destruct (injectedInlineStateOnly w); now repeat split.
Qed.

Lemma X20_rendering_starts_from_the_exposed_state_witness :
  let w := {| isScullyRunning := true; isScullyGenerated := false;
              injectedInlineStateOnly := false;
              exposedTransferState := Some [(lit "title", JStr (lit "A"))];
              pathname := lit "/blog"; windowState := None |} in
  let s := startMonitoring Samples.stringify w new_service in
  stateBS s = Some [(lit "title", JStr (lit "A"))]
  /\ script s = Some (scriptText (Samples.stringify [(lit "title", JStr (lit "A"))]))
  /\ initialUrl s = None
  /\ router_event Samples.mergePaths (NavigationStart (lit "/docs")) s = s.
Proof.
  intros w.
  apply (X20_rendering_starts_from_the_exposed_state Samples.stringify Samples.mergePaths w
           [(lit "title", JStr (lit "A"))] (NavigationStart (lit "/docs"))).
  - reflexivity.
  - reflexivity.
  - reflexivity.
Defined.

End TransferStateExtra.
